(** * The expiring key/value cache of the disaster-coordination backend

    A shallow embedding of [CacheManager] (server/middleware/errorHandler.js,
    the part after the Supabase client is created) and of the [cache] table
    it talks to (supabase/migrations/20250620062538_empty_spring.sql).

    - Instants are integers: milliseconds since the epoch, as [Date.now()]
      and [Date.prototype.getTime] give them.  A time-to-live is an integer
      number of minutes, or is omitted by the caller.
    - The [cache] table is the list of its rows; its primary key is an
      invariant ([primary_key]) that the operations are shown to keep.
    - Every request to the store is answered according to a [fault] that the
      environment chooses: it is served, it comes back as an
      [{ error }] response, or the awaited promise rejects.  A request that
      is not served leaves the table as it was; a served one gives back the
      value and the instant that were stored.
    - JavaScript's [try]/[catch] is the [try_catch] of a small state and
      exception monad, [console.error] appends to a log. *)

From Stdlib Require Import ZArith List String Bool Lia.
From Stdlib Require Import Sorted Permutation.
Import ListNotations.
Open Scope string_scope.
Open Scope list_scope.
Open Scope Z_scope.

(** ** Values *)

#[local] Set Warnings "-register-all".

(** What [JSON.stringify] can send and a [jsonb] column can hold. *)
Inductive json : Type :=
| JNull
| JBool (b : bool)
| JNumber (n : Z)
| JString (s : string)
| JArray (items : list json)
| JObject (fields : list (string * json)).

(** JavaScript errors that reach a [catch] block of the cache. *)
Inductive js_error : Type :=
| PostgrestError (code : string)
| FetchError (message : string)
| RangeError (message : string).

(** ** The [cache] table

    [key text PRIMARY KEY, value jsonb NOT NULL, expires_at timestamptz NOT NULL] *)
Record row : Type := mkRow {
  key : string;
  value : json;
  expires_at : Z
}.

Definition table : Type := list row.

Definition has_key (k : string) (r : row) : bool := String.eqb (key r) k.

(** [WHERE key = k] *)
Definition rows_with (k : string) (t : table) : table := filter (has_key k) t.

(** The uniqueness that [PRIMARY KEY] enforces. *)
Definition primary_key (t : table) : Prop := NoDup (map key t).

(** [INSERT ... ON CONFLICT (key) DO UPDATE]: the row with this key is
    replaced whole, a new key adds a row. *)
Definition upsert_row (r : row) (t : table) : table :=
  if existsb (has_key (key r)) t
  then map (fun old => if has_key (key r) old then r else old) t
  else t ++ [r].

(** [DELETE FROM cache WHERE key = k] *)
Definition delete_rows (k : string) (t : table) : table :=
  filter (fun r => negb (has_key k r)) t.

(** ** The process: table, console, exceptions *)

Record world : Type := mkWorld {
  cache : table;
  console : list (string * js_error)
}.

Inductive outcome (A : Type) : Type :=
| Returned (a : A)
| Thrown (e : js_error).
Arguments Returned {A} a.
Arguments Thrown {A} e.

Definition M (A : Type) : Type := world -> outcome A * world.

Definition ret {A} (a : A) : M A := fun w => (Returned a, w).

Definition bind {A B} (m : M A) (k : A -> M B) : M B :=
  fun w =>
    match m w with
    | (Returned a, w') => k a w'
    | (Thrown e, w') => (Thrown e, w')
    end.

Definition throw {A} (e : js_error) : M A := fun w => (Thrown e, w).

(** [try { body } catch (error) { handler }] *)
Definition try_catch {A} (body : M A) (handler : js_error -> M A) : M A :=
  fun w =>
    match body w with
    | (Returned a, w') => (Returned a, w')
    | (Thrown e, w') => handler e w'
    end.

Declare Scope js_scope.
Delimit Scope js_scope with js.
Notation "x <- m ;; k" := (bind m (fun x => k))
  (at level 100, m at next level, right associativity) : js_scope.
Notation "m ;; k" := (bind m (fun _ => k))
  (at level 100, right associativity) : js_scope.
Open Scope js_scope.

Definition console_error (label : string) (e : js_error) : M unit :=
  fun w => (Returned tt, mkWorld (cache w) (console w ++ [(label, e)])).

Definition read_table : M table := fun w => (Returned (cache w), w).

Definition write_table (t : table) : M unit :=
  fun w => (Returned tt, mkWorld t (console w)).

(** ** Dates *)

(** A [Date] holds a time value within 8.64e15 ms of the epoch, or is
    invalid ([TimeClip]). *)
Inductive Date : Type :=
| ValidDate (ms : Z)
| InvalidDate.

Definition max_time : Z := 8640000000000000.

Definition in_date_range (ms : Z) : bool :=
  (- max_time <=? ms) && (ms <=? max_time).

Definition new_Date (ms : Z) : Date :=
  if in_date_range ms then ValidDate ms else InvalidDate.

(** [toISOString] throws a [RangeError] on an invalid date.  The string it
    makes names the instant to the millisecond, and the [timestamptz] column
    gives the same instant back, so the model keeps the integer. *)
Definition toISOString (d : Date) : M Z :=
  match d with
  | ValidDate ms => ret ms
  | InvalidDate => throw (RangeError "Invalid time value")
  end.

(** ** The Supabase client, as seen by the cache *)

Inductive fault : Type :=
| Served
| ErrorResponse (e : js_error)
| Rejects (e : js_error).

(** What an awaited query resolves to: [{ data, error }]. *)
Record response (A : Type) : Type := mkResponse {
  data : option A;
  error : option js_error
}.
Arguments mkResponse {A} data error.
Arguments data {A} r.
Arguments error {A} r.

Definition answer {A} (f : fault) (served : M (response A)) : M (response A) :=
  match f with
  | Served => served
  | ErrorResponse e => ret (mkResponse None (Some e))
  | Rejects e => throw e
  end.

(** [supabase.from('cache').select('value, expires_at').eq('key', k).single()]:
    [single] wants exactly one row and answers with an error otherwise. *)
Definition select_single (f : fault) (k : string) : M (response (json * Z)) :=
  answer f
    (t <- read_table ;;
     match rows_with k t with
     | [r] => ret (mkResponse (Some (value r, expires_at r)) None)
     | _ => ret (mkResponse None (Some (PostgrestError "PGRST116")))
     end).

(** [supabase.from('cache').upsert({ key, value, expires_at })] *)
Definition upsert (f : fault) (r : row) : M (response unit) :=
  answer f
    (t <- read_table ;;
     write_table (upsert_row r t) ;;
     ret (mkResponse None None)).

(** [supabase.from('cache').delete().eq('key', k)] *)
Definition delete_eq (f : fault) (k : string) : M (response unit) :=
  answer f
    (t <- read_table ;;
     write_table (delete_rows k t) ;;
     ret (mkResponse None None)).

(** ** CacheManager *)

Module CacheManager.

(** [static async delete(key)] *)
Definition delete (f : fault) (k : string) : M bool :=
  try_catch
    (r <- delete_eq f k ;;
     match error r with
     | Some e => throw e
     | None => ret true
     end)
    (fun e => console_error "Cache delete error:" e ;; ret false).

(** [static async get(key)].  [now] is what [new Date()] reads at the expiry
    check; [f_select] and [f_delete] answer the two requests.  The result is
    a JavaScript value: [JNull] is the [null] the code returns for "absent". *)
Definition get (now : Z) (f_select f_delete : fault) (k : string) : M json :=
  try_catch
    (r <- select_single f_select k ;;
     match error r, data r with
     | None, Some (v, expires) =>
         if expires <? now
         then delete f_delete k ;; ret JNull
         else ret v
     | _, _ => ret JNull
     end)
    (fun e => console_error "Cache get error:" e ;; ret JNull).

(** The parameter list [(key, value, ttlMinutes = 60)]: an omitted
    ([undefined]) third argument takes the default. *)
Definition ttl_or_default (ttlMinutes : option Z) : Z :=
  match ttlMinutes with
  | Some ttl => ttl
  | None => 60
  end.

(** [static async set(key, value, ttlMinutes = 60)].  [now] is what
    [Date.now()] reads. *)
Definition set (now : Z) (f : fault) (k : string) (v : json)
    (ttlMinutes : option Z) : M bool :=
  let ttl := ttl_or_default ttlMinutes in
  try_catch
    (let expiresAt := new_Date (now + ttl * 60 * 1000) in
     iso <- toISOString expiresAt ;;
     r <- upsert f (mkRow k v iso) ;;
     match error r with
     | Some e => throw e
     | None => ret true
     end)
    (fun e => console_error "Cache set error:" e ;; ret false).

End CacheManager.

(** ** Histories of calls

    A caller's view of the component: calls made one after the other, each
    with the clock reading and the store's answers it meets. *)
Inductive call : Type :=
| CallGet (now : Z) (f_select f_delete : fault) (k : string)
| CallSet (now : Z) (f : fault) (k : string) (v : json) (ttlMinutes : option Z)
| CallDelete (f : fault) (k : string).

Definition state_after {A} (m : M A) (w : world) : world := snd (m w).

Definition result_of {A} (m : M A) (w : world) : outcome A := fst (m w).

Definition run_call (c : call) (w : world) : world :=
  match c with
  | CallGet now fs fd k => state_after (CacheManager.get now fs fd k) w
  | CallSet now f k v ttl => state_after (CacheManager.set now f k v ttl) w
  | CallDelete f k => state_after (CacheManager.delete f k) w
  end.

Definition run_calls (cs : list call) (w : world) : world :=
  fold_left (fun w c => run_call c w) cs w.

(** The process as it starts: nothing cached, nothing logged. *)
Definition fresh : world := mkWorld [] [].

(** The instant a [set] at [now] with [ttl] minutes stores. *)
Definition expiry (now ttl : Z) : Z := now + ttl * 60 * 1000.

(** The calls that only read. *)
Definition is_get (c : call) : bool :=
  match c with
  | CallGet _ _ _ _ => true
  | _ => false
  end.

(** Sample data: a geocoding result, and a row that expired at instant 500. *)
Definition manhattan : json :=
  JObject [("lat", JNumber 41); ("lng", JNumber (-74))].

Definition stale_row : row := mkRow "geocode_manhattan" (JString "old") 500.

(** The key a call is about. *)
Definition call_key (c : call) : string :=
  match c with
  | CallGet _ _ _ k => k
  | CallSet _ _ k _ _ => k
  | CallDelete _ k => k
  end.

(** The calls that write under [k]. *)
Definition is_set_on (k : string) (c : call) : bool :=
  match c with
  | CallSet _ _ k' _ _ => String.eqb k' k
  | _ => false
  end.

(** ** The mock authentication (server/middleware/auth.js) and the gates of
    the disaster routes

    [mockUsers] and [roleHierarchy] are object literals read with a computed
    key, so a key that is not their own is looked up on [Object.prototype]. *)

Module Auth.

(** The property names every object literal inherits. *)
Definition object_prototype_keys : list string :=
  ["constructor"; "hasOwnProperty"; "isPrototypeOf"; "propertyIsEnumerable";
   "toLocaleString"; "toString"; "valueOf"; "__proto__";
   "__defineGetter__"; "__defineSetter__"; "__lookupGetter__";
   "__lookupSetter__"].

Definition inherited (name : string) : bool :=
  existsb (String.eqb name) object_prototype_keys.

(** [literal[name]]: an own property, a member of [Object.prototype] (a
    function, or the prototype itself), or [undefined]. *)
Inductive property (A : Type) : Type :=
| Own (a : A)
| Member (name : string)
| Undefined.
Arguments Own {A} a.
Arguments Member {A} name.
Arguments Undefined {A}.

Fixpoint own_property {A} (literal : list (string * A)) (name : string)
  : option A :=
  match literal with
  | [] => None
  | (n, a) :: rest => if String.eqb n name then Some a else own_property rest name
  end.

Definition get_property {A} (literal : list (string * A)) (name : string)
  : property A :=
  match own_property literal name with
  | Some a => Own a
  | None => if inherited name then Member name else Undefined
  end.

Record mock_user : Type := mkUser {
  user_id : string;
  username : string;
  role : string
}.

Definition mockUsers : list (string * mock_user) :=
  [("admin", mkUser "admin" "reliefAdmin" "admin");
   ("contributor", mkUser "contributor" "netrunnerX" "contributor");
   ("viewer", mkUser "viewer" "citizen1" "viewer")].

(** What [req.user] can hold: a mock user, a member of [Object.prototype],
    or [undefined]. *)
Definition req_user : Type := property mock_user.

(** [a || b] on such values: only [undefined] is falsy. *)
Definition or_else (a b : req_user) : req_user :=
  match a with
  | Undefined => b
  | _ => a
  end.

(** [authMiddleware]: [header] is [req.headers['x-user-id']].  The result is
    the [req.user] it sets; it always goes on to [next()]. *)
Definition authMiddleware (header : option string) : req_user :=
  let userId :=
    match header with
    | Some s => if String.eqb s "" then "contributor" else s
    | None => "contributor"
    end in
  or_else (get_property mockUsers userId) (get_property mockUsers "contributor").

(** What a gate or a handler does with the request. *)
Inductive handled : Type :=
| Next
| Respond (status : Z) (body : json)
| NextError (what : string).

Definition roleHierarchy : list (string * Z) :=
  [("viewer", 1); ("contributor", 2); ("admin", 3)].

(** The operands of [userLevel < requiredLevel]: a number, or an object that
    converts to [NaN]. *)
Inductive level : Type :=
| Level (n : Z)
| NotANumber.

(** [roleHierarchy[name] || fallback] *)
Definition level_or (name : string) (fallback : Z) : level :=
  match get_property roleHierarchy name with
  | Own n => if n =? 0 then Level fallback else Level n
  | Member _ => NotANumber
  | Undefined => Level fallback
  end.

(** [a < b]: false as soon as an operand is [NaN]. *)
Definition less_than (a b : level) : bool :=
  match a, b with
  | Level x, Level y => x <? y
  | _, _ => false
  end.

(** [req.user.role] as a property key; a member of [Object.prototype] has no
    [role], which reads as the key ["undefined"]. *)
Definition role_key (u : req_user) : option string :=
  match u with
  | Own m => Some (role m)
  | Member _ => Some "undefined"
  | Undefined => None
  end.

(** [requireRole(requiredRole)] applied to a request with [req.user = u].
    Reading [role] off [undefined] throws, which Express hands to the error
    handler. *)
Definition requireRole (requiredRole : string) (u : req_user) : handled :=
  match role_key u with
  | None => NextError "TypeError"
  | Some r =>
      let userLevel := level_or r 0 in
      let requiredLevel := level_or requiredRole 999 in
      if less_than userLevel requiredLevel
      then Respond 403 (JObject [("error", JString "Insufficient permissions")])
      else Next
  end.

(** What the first query of [PUT /disasters/:id] gives: the row's
    [owner_id], or an error with its [code]. *)
Inductive existing : Type :=
| Found (owner_id : string)
| FetchError (code : string).

(** [req.user.id] compared with [!==] to a string. *)
Definition is_owner (owner_id : string) (u : req_user) : bool :=
  match u with
  | Own m => String.eqb owner_id (user_id m)
  | _ => false
  end.

Definition is_admin (u : req_user) : bool :=
  match u with
  | Own m => String.eqb (role m) "admin"
  | _ => false
  end.

(** [PUT /disasters/:id] up to the update: the [requireRole('contributor')]
    gate, the fetch of the existing row, the ownership check.  [Next] stands
    for going on to the update. *)
Definition put_disaster_access (header : option string) (e : existing)
  : handled :=
  let u := authMiddleware header in
  match requireRole "contributor" u with
  | Next =>
      match e with
      | FetchError code =>
          if String.eqb code "PGRST116"
          then Respond 404 (JObject [("error", JString "Disaster not found")])
          else NextError code
      | Found owner_id =>
          if negb (is_owner owner_id u) && negb (is_admin u)
          then Respond 403
                 (JObject [("error",
                            JString "You can only update your own disasters")])
          else Next
      end
  | stopped => stopped
  end.

(** [DELETE /disasters/:id] up to the delete: the [requireRole('admin')]
    gate. *)
Definition delete_disaster_access (header : option string) : handled :=
  requireRole "admin" (authMiddleware header).

End Auth.

(** ** The geocoding lookup behind the cache (server/routes/geocoding.js) *)

(** JavaScript's truthiness, as [if (cachedResult)] tests it. *)
Definition truthy (v : json) : bool :=
  match v with
  | JNull => false
  | JBool b => b
  | JNumber n => negb (n =? 0)
  | JString s => negb (String.eqb s "")
  | JArray _ => true
  | JObject _ => true
  end.

Inductive geocoder : Type :=
| GoogleMaps
| Nominatim
| Mapbox.

(** What [geocodeLocation] finds around it: the base64 of
    [Buffer.from(name).toString('base64')], whether the two environment
    variables are set, and what each of the three services' functions
    returns for a name ([null] when it finds nothing or fails).  The line a
    service function writes with [console.error] when its request fails is
    not kept: of a lookup the model follows the value and the table, not
    the console. *)
Record geocoding : Type := mkGeocoding {
  base64 : string -> string;
  GOOGLE_MAPS_API_KEY : bool;
  MAPBOX_ACCESS_TOKEN : bool;
  geocodeWithGoogleMaps : string -> json;
  geocodeWithNominatim : string -> json;
  geocodeWithMapbox : string -> json
}.

(** The clock readings and the store's answers that one cached lookup
    meets: for its [get], and for its [set] if it makes one. *)
Record cache_answers : Type := mkAnswers {
  read_at : Z;
  read_select : fault;
  read_delete : fault;
  write_at : Z;
  write_fault : fault
}.

(** The three fallbacks of [geocodeLocation], with the services it awaits,
    in order. *)
Definition geocode_uncached (G : geocoding) (locationName : string)
  : json * list geocoder :=
  let '(coordinates, asked) :=
    if GOOGLE_MAPS_API_KEY G
    then (geocodeWithGoogleMaps G locationName, [GoogleMaps])
    else (JNull, []) in
  let '(coordinates, asked) :=
    if negb (truthy coordinates)
    then (geocodeWithNominatim G locationName, asked ++ [Nominatim])
    else (coordinates, asked) in
  if negb (truthy coordinates) && MAPBOX_ACCESS_TOKEN G
  then (geocodeWithMapbox G locationName, asked ++ [Mapbox])
  else (coordinates, asked).

Definition geocode_key (G : geocoding) (locationName : string) : string :=
  "geocode_" ++ base64 G locationName.

(** [async function geocodeLocation(locationName)]; beside the value it
    returns, the services it awaited. *)
Definition geocodeLocation (G : geocoding) (A : cache_answers)
    (locationName : string) : M (json * list geocoder) :=
  let cacheKey := geocode_key G locationName in
  cachedResult <-
    CacheManager.get (read_at A) (read_select A) (read_delete A) cacheKey ;;
  if truthy cachedResult
  then ret (cachedResult, [])
  else
    let '(coordinates, asked) := geocode_uncached G locationName in
    (if truthy coordinates
     then CacheManager.set (write_at A) (write_fault A) cacheKey coordinates
            (Some 1440) ;; ret tt
     else ret tt) ;;
    ret (coordinates, asked).

(** Sample surroundings: no API keys, OpenStreetMap knows the place (or
    knows nothing), and the name's base64 is ["TWFuaGF0dGFu"]. *)
Definition osm_only (found : json) : geocoding :=
  mkGeocoding (fun _ => "TWFuaGF0dGFu") false false
    (fun _ => JNull) (fun _ => found) (fun _ => JNull).

Definition healthy_at (read write : Z) : cache_answers :=
  mkAnswers read Served Served write Served.

(** ** The social-media route (server/routes/socialMedia.js) *)

Module SocialMedia.

(** The library functions the route leans on, as the engine provides them:
    [String.prototype.toLowerCase], [split(',')], [trim], [includes],
    [parseInt] ([None] for [NaN]) and [Date.prototype.toISOString] of a time
    value. *)
Record javascript : Type := mkJavascript {
  toLowerCase : string -> string;
  split_comma : string -> list string;
  trim : string -> string;
  includes : string -> string -> bool;
  parseInt : string -> option Z;
  isoString : Z -> string
}.

Record report : Type := mkReport {
  report_id : string;
  platform : string;
  author : string;
  content : string;
  posted_at : Z;
  urgency : string;
  location : string;
  verified : bool;
  likes : Z;
  retweets : Z;
  replies : Z
}.

(** [mockReports]; [now i] is the i-th reading of [Date.now()] in the
    call.  A clock reading less an hour is a valid date, so [posted_at] keeps
    the instant and [toISOString] is applied when the body is built. *)
Definition mockReports (now : nat -> Z) : list report :=
  [mkReport "1" "twitter" "citizen1"
     "#floodrelief Need food and water in Lower East Side Manhattan. Family of 4 trapped on 3rd floor."
     (now 0%nat - 30 * 60 * 1000) "high" "Lower East Side, Manhattan" false
     45 23 12;
   mkReport "2" "twitter" "relief_worker"
     "Setting up temporary shelter at Brooklyn Community Center. Can accommodate 50 families. #disasterrelief"
     (now 1%nat - 45 * 60 * 1000) "medium" "Brooklyn, NYC" true
     78 56 8;
   mkReport "3" "bluesky" "emergency_nyc"
     "URGENT: Road closures on FDR Drive due to flooding. Seek alternate routes. Emergency vehicles only."
     (now 2%nat - 15 * 60 * 1000) "high" "FDR Drive, NYC" true
     234 189 45;
   mkReport "4" "twitter" "volunteer_help"
     "Volunteers needed at Red Cross station. Bring boats if possible. Contact @redcross_nyc #volunteer"
     (now 3%nat - 60 * 60 * 1000) "medium" "Manhattan, NYC" false
     156 89 34;
   mkReport "5" "twitter" "sos_help"
     "SOS! Elderly couple stuck in basement apartment. Water rising fast. Address: 45 Delancey St. HELP!"
     (now 4%nat - 10 * 60 * 1000) "critical" "45 Delancey St, NYC" false
     267 445 78].

(** [if (keywords) { ... mockReports.filter(...) }]: a missing or empty
    [keywords] filters nothing. *)
Definition filter_by_keywords (J : javascript) (keywords : option string)
    (reports : list report) : list report :=
  match keywords with
  | None => reports
  | Some kw =>
      if String.eqb kw "" then reports
      else
        let keywordArray := map (trim J) (split_comma J (toLowerCase J kw)) in
        filter
          (fun r =>
             existsb
               (fun keyword =>
                  includes J (toLowerCase J (content r)) keyword
                  || includes J (toLowerCase J (location r)) keyword)
               keywordArray)
          reports
  end.

(** [parseInt(limit)] with [limit = 10] when the query has none. *)
Definition parsed_limit (J : javascript) (limit : option string) : option Z :=
  match limit with
  | None => Some 10
  | Some text => parseInt J text
  end.

(** [array.slice(0, end)]: [NaN] counts as 0, a negative [end] counts back
    from the length. *)
Definition slice_to {A} (finish : option Z) (l : list A) : list A :=
  match finish with
  | None => []
  | Some n =>
      if n <? 0
      then firstn (Z.to_nat (Z.max (Z.of_nat (List.length l) + n) 0)) l
      else firstn (Z.to_nat n) l
  end.

(** The [filteredReports] that [getMockSocialMediaData] returns. *)
Definition filteredReports (J : javascript) (now : nat -> Z)
    (keywords limit : option string) : list report :=
  slice_to (parsed_limit J limit)
    (filter_by_keywords J keywords (mockReports now)).

Definition count_urgency (u : string) (reports : list report) : Z :=
  Z.of_nat (List.length (filter (fun r => String.eqb (urgency r) u) reports)).

Definition count_verified (reports : list report) : Z :=
  Z.of_nat (List.length (filter verified reports)).

Definition report_json (J : javascript) (r : report) : json :=
  JObject
    [("id", JString (report_id r));
     ("platform", JString (platform r));
     ("username", JString (author r));
     ("content", JString (content r));
     ("timestamp", JString (isoString J (posted_at r)));
     ("urgency", JString (urgency r));
     ("location", JString (location r));
     ("verified", JBool (verified r));
     ("engagement",
      JObject [("likes", JNumber (likes r));
               ("retweets", JNumber (retweets r));
               ("replies", JNumber (replies r))])].

(** [async function getMockSocialMediaData(disasterId, keywords, limit)] *)
Definition getMockSocialMediaData (J : javascript) (now : nat -> Z)
    (disasterId : string) (keywords limit : option string) : json :=
  let reports := filteredReports J now keywords limit in
  JObject
    [("disaster_id", JString disasterId);
     ("reports", JArray (map (report_json J) reports));
     ("summary",
      JObject [("total", JNumber (Z.of_nat (List.length reports)));
               ("critical", JNumber (count_urgency "critical" reports));
               ("high", JNumber (count_urgency "high" reports));
               ("medium", JNumber (count_urgency "medium" reports));
               ("verified", JNumber (count_verified reports))]);
     ("last_updated", JString (isoString J (now 5%nat)))].

(** [`social_media_${disasterId}_${keywords || 'all'}`] *)
Definition cacheKey (disasterId : string) (keywords : option string) : string :=
  "social_media_" ++ disasterId ++ "_" ++
  match keywords with
  | Some kw => if String.eqb kw "" then "all" else kw
  | None => "all"
  end.

(** A message sent to a room: [req.io.to(room).emit(event, payload)]. *)
Record emitted : Type := mkEmitted {
  room : string;
  event : string;
  payload : json
}.

(** [GET /disasters/:id/social-media]: the body of the [res.json] it ends
    with, and what it emits. *)
Definition route (J : javascript) (now : nat -> Z) (A : cache_answers)
    (disasterId : string) (keywords limit : option string)
  : M (json * list emitted) :=
  let key := cacheKey disasterId keywords in
  cachedData <-
    CacheManager.get (read_at A) (read_select A) (read_delete A) key ;;
  if truthy cachedData
  then ret (cachedData, [])
  else
    let mockSocialMediaData :=
      getMockSocialMediaData J now disasterId keywords limit in
    CacheManager.set (write_at A) (write_fault A) key mockSocialMediaData
      (Some 15) ;;
    ret (mockSocialMediaData,
         [mkEmitted ("disaster_" ++ disasterId) "social_media_updated"
            (JObject
               [("disaster_id", JString disasterId);
                ("reports",
                 JArray (map (report_json J)
                           (filteredReports J now keywords limit)))])]).

End SocialMedia.

(** Reading a response body back: [body.name] on an object, and the tests a
    client makes on one report of [body.reports]. *)
Fixpoint field_of (fields : list (string * json)) (name : string)
  : option json :=
  match fields with
  | [] => None
  | (n, v) :: rest => if String.eqb n name then Some v else field_of rest name
  end.

Definition json_field (name : string) (body : json) : option json :=
  match body with
  | JObject fields => field_of fields name
  | _ => None
  end.

(** [r.urgency === u] *)
Definition urgency_is (u : string) (r : json) : bool :=
  match json_field "urgency" r with
  | Some (JString s) => String.eqb s u
  | _ => false
  end.

(** [r.verified] *)
Definition is_verified (r : json) : bool :=
  match json_field "verified" r with
  | Some (JBool b) => b
  | _ => false
  end.

Definition count_of (test : json -> bool) (l : list json) : Z :=
  Z.of_nat (List.length (filter test l)).

(** A stand-in engine for the examples: it splits nothing, trims nothing,
    matches every keyword and reads every limit as 1. *)
Definition plain_javascript : SocialMedia.javascript :=
  SocialMedia.mkJavascript
    (fun s => s) (fun s => [s]) (fun s => s) (fun _ _ => true)
    (fun _ => Some 1) (fun _ => "1970-01-01T00:00:01.000Z").

(** ** The official updates (server/routes/updates.js) *)

Module Updates.











End Updates.

(** * Facts about the table *)

Section TableFacts.

Lemma has_key_true (k : string) (r : row) : has_key k r = true <-> key r = k.
Proof. unfold has_key. apply String.eqb_eq. Qed.

Lemma has_key_false (k : string) (r : row) : has_key k r = false <-> key r <> k.
Proof. unfold has_key. apply String.eqb_neq. Qed.

Lemma has_key_refl (r : row) : has_key (key r) r = true.
Proof. now apply has_key_true. Qed.

Lemma existsb_has_key (k : string) (t : table) :
  existsb (has_key k) t = true <-> In k (map key t).
Proof.
  rewrite existsb_exists, in_map_iff.
  split; intros [r [H1 H2]]; exists r.
  - apply has_key_true in H2. now split.
  - split; [assumption | now apply has_key_true].
Qed.

Lemma rows_with_absent (k : string) (t : table) :
  ~ In k (map key t) -> rows_with k t = [].
Proof.
  induction t as [|r t IH]; simpl; intros Hnot; [reflexivity|].
  destruct (has_key k r) eqn:E.
  - apply has_key_true in E. tauto.
  - apply IH. tauto.
Qed.

Lemma rows_with_present (r : row) (t : table) :
  primary_key t -> In r t -> rows_with (key r) t = [r].
Proof.
  unfold primary_key.
  induction t as [|r0 t IH]; simpl; intros Hpk Hin; [contradiction|].
  apply NoDup_cons_iff in Hpk. destruct Hpk as [Hfresh Hpk].
  destruct Hin as [-> | Hin].
  - rewrite has_key_refl. f_equal. now apply rows_with_absent.
  - destruct (has_key (key r) r0) eqn:E.
    + apply has_key_true in E. exfalso. apply Hfresh.
      rewrite E. now apply in_map.
    + now apply IH.
Qed.

(** Under the primary key a [WHERE key = k] finds at most one row. *)
Lemma rows_with_at_most_one (k : string) (t : table) :
  primary_key t -> (List.length (rows_with k t) <= 1)%nat.
Proof.
  intros Hpk. destruct (rows_with k t) as [|r rest] eqn:E; simpl; [lia|].
  assert (Hin : In r (rows_with k t)) by (rewrite E; now left).
  apply filter_In in Hin. destruct Hin as [Hin Hk].
  apply has_key_true in Hk. subst k.
  rewrite (rows_with_present r t Hpk Hin) in E.
  injection E as <-. simpl. lia.
Qed.

Lemma upsert_row_keys (r : row) (t : table) :
  map key (upsert_row r t) =
  if existsb (has_key (key r)) t then map key t else map key t ++ [key r].
Proof.
  unfold upsert_row. destruct (existsb (has_key (key r)) t).
  - rewrite map_map. apply map_ext. intros old.
    destruct (has_key (key r) old) eqn:E; [|reflexivity].
    apply has_key_true in E. now symmetry.
  - rewrite map_app. reflexivity.
Qed.

Lemma upsert_row_primary_key (r : row) (t : table) :
  primary_key t -> primary_key (upsert_row r t).
Proof.
  unfold primary_key. intros Hpk. rewrite upsert_row_keys.
  destruct (existsb (has_key (key r)) t) eqn:E; [assumption|].
  assert (Hnot : ~ In (key r) (map key t)).
  { intros Hin. apply existsb_has_key in Hin. congruence. }
  apply NoDup_app.
  - assumption.
  - constructor; [tauto | constructor].
  - intros x Hx [Hr | []]. subst x. contradiction.
Qed.

Lemma upsert_row_In (r : row) (t : table) : In r (upsert_row r t).
Proof.
  unfold upsert_row. destruct (existsb (has_key (key r)) t) eqn:E.
  - apply existsb_exists in E. destruct E as [old [Hin Hk]].
    apply in_map_iff. exists old. rewrite Hk. now split.
  - apply in_or_app. right. now left.
Qed.

Lemma rows_with_upsert (r : row) (t : table) :
  primary_key t -> rows_with (key r) (upsert_row r t) = [r].
Proof.
  intros Hpk. apply rows_with_present.
  - now apply upsert_row_primary_key.
  - apply upsert_row_In.
Qed.

Lemma rows_with_upsert_other (k : string) (r : row) (t : table) :
  key r <> k -> rows_with k (upsert_row r t) = rows_with k t.
Proof.
  intros Hne. unfold upsert_row, rows_with.
  assert (Hr : has_key k r = false) by now apply has_key_false.
  destruct (existsb (has_key (key r)) t).
  - induction t as [|old t IH]; simpl; [reflexivity|].
    destruct (has_key (key r) old) eqn:E.
    + apply has_key_true in E. rewrite Hr.
      assert (Hold : has_key k old = false)
        by (apply has_key_false; congruence).
      rewrite Hold. exact IH.
    + destruct (has_key k old); [f_equal|]; exact IH.
  - rewrite filter_app. simpl. rewrite Hr. apply app_nil_r.
Qed.

Lemma delete_rows_primary_key (k : string) (t : table) :
  primary_key t -> primary_key (delete_rows k t).
Proof.
  unfold primary_key, delete_rows.
  induction t as [|r t IH]; simpl; intros Hpk; [constructor|].
  apply NoDup_cons_iff in Hpk. destruct Hpk as [Hfresh Hpk].
  destruct (negb (has_key k r)); simpl; [|now apply IH].
  constructor; [|now apply IH].
  intros Hin. apply Hfresh.
  apply in_map_iff in Hin. destruct Hin as [x [Hx Hin]].
  apply filter_In in Hin. rewrite <- Hx. apply in_map. tauto.
Qed.

Lemma rows_with_delete (k : string) (t : table) :
  rows_with k (delete_rows k t) = [].
Proof.
  unfold rows_with, delete_rows.
  induction t as [|r t IH]; simpl; [reflexivity|].
  destruct (has_key k r) eqn:E; simpl; [exact IH|].
  rewrite E. exact IH.
Qed.

Lemma rows_with_delete_other (k k' : string) (t : table) :
  k <> k' -> rows_with k (delete_rows k' t) = rows_with k t.
Proof.
  intros Hne. unfold rows_with, delete_rows.
  induction t as [|r t IH]; simpl; [reflexivity|].
  destruct (has_key k' r) eqn:E'; simpl.
  - apply has_key_true in E'.
    assert (E : has_key k r = false) by (apply has_key_false; congruence).
    rewrite E. exact IH.
  - destruct (has_key k r); [f_equal|]; exact IH.
Qed.

Lemma delete_rows_absent (k : string) (t : table) :
  ~ In k (map key (delete_rows k t)).
Proof.
  intros Hin. apply in_map_iff in Hin. destruct Hin as [r [Hk Hin]].
  apply filter_In in Hin. destruct Hin as [_ Hneg].
  apply negb_true_iff, has_key_false in Hneg. contradiction.
Qed.

(** A second upsert under the same key leaves what a single one leaves. *)
Lemma upsert_row_twice (r1 r2 : row) (t : table) :
  key r1 = key r2 -> upsert_row r2 (upsert_row r1 t) = upsert_row r2 t.
Proof.
  intros Hk. unfold upsert_row at 1.
  assert (Hex : existsb (has_key (key r2)) (upsert_row r1 t) = true).
  { apply existsb_exists. exists r1. split; [apply upsert_row_In|].
    now apply has_key_true. }
  rewrite Hex. unfold upsert_row. rewrite Hk.
  assert (Hr1 : has_key (key r2) r1 = true) by now apply has_key_true.
  destruct (existsb (has_key (key r2)) t) eqn:E.
  - rewrite map_map. apply map_ext. intros old.
    destruct (has_key (key r2) old) eqn:Eo.
    + now rewrite Hr1.
    + now rewrite Eo.
  - rewrite map_app. simpl. rewrite Hr1. f_equal.
    rewrite <- (map_id t) at 2. apply map_ext_in. intros old Hin.
    destruct (has_key (key r2) old) eqn:Eo; [|reflexivity].
    exfalso. assert (existsb (has_key (key r2)) t = true)
      by (apply existsb_exists; now exists old).
    congruence.
Qed.

End TableFacts.

(** * What each operation does, case by case *)

Section Operations.

Variable now : Z.
Variable k : string.
Variable w : world.

Lemma delete_served :
  CacheManager.delete Served k w =
  (Returned true, mkWorld (delete_rows k (cache w)) (console w)).
Proof. reflexivity. Qed.

Lemma delete_not_served (f : fault) :
  f <> Served ->
  result_of (CacheManager.delete f k) w = Returned false /\
  cache (state_after (CacheManager.delete f k) w) = cache w.
Proof. destruct f; [congruence | split; reflexivity ..]. Qed.

Lemma delete_returns (f : fault) :
  exists b, result_of (CacheManager.delete f k) w = Returned b.
Proof. destruct f; eexists; reflexivity. Qed.

Lemma delete_cache (f : fault) :
  cache (state_after (CacheManager.delete f k) w) =
  match f with Served => delete_rows k (cache w) | _ => cache w end.
Proof. destruct f; reflexivity. Qed.

Lemma get_not_served (f fd : fault) :
  f <> Served ->
  result_of (CacheManager.get now f fd k) w = Returned JNull /\
  cache (state_after (CacheManager.get now f fd k) w) = cache w.
Proof. destruct f; [congruence | split; reflexivity ..]. Qed.

Lemma get_served (fd : fault) :
  CacheManager.get now Served fd k w =
  match rows_with k (cache w) with
  | [r] =>
      if expires_at r <? now
      then (Returned JNull, state_after (CacheManager.delete fd k) w)
      else (Returned (value r), w)
  | _ => (Returned JNull, w)
  end.
Proof.
  cbv [CacheManager.get try_catch bind select_single answer read_table ret].
  destruct (rows_with k (cache w)) as [|r [|r' rest]]; cbn [data error];
    try reflexivity.
  destruct (expires_at r <? now); [|reflexivity].
  unfold state_after. destruct fd; reflexivity.
Qed.

Lemma get_live (fd : fault) (r : row) :
  rows_with k (cache w) = [r] -> now <= expires_at r ->
  CacheManager.get now Served fd k w = (Returned (value r), w).
Proof.
  intros Hrow Hlive. rewrite get_served, Hrow.
  apply Z.ltb_ge in Hlive. now rewrite Hlive.
Qed.

Lemma get_expired (fd : fault) (r : row) :
  rows_with k (cache w) = [r] -> expires_at r < now ->
  CacheManager.get now Served fd k w =
  (Returned JNull, state_after (CacheManager.delete fd k) w).
Proof.
  intros Hrow Hold. rewrite get_served, Hrow.
  apply Z.ltb_lt in Hold. now rewrite Hold.
Qed.

(** Whatever the store answers, [get] returns, and what it returns other
    than [null] is the value of the one row under [k], not yet expired. *)
Lemma get_result (fs fd : fault) :
  exists v,
    result_of (CacheManager.get now fs fd k) w = Returned v /\
    (v <> JNull ->
     exists r, rows_with k (cache w) = [r] /\ value r = v /\
               now <= expires_at r).
Proof.
  destruct fs as [|e|e];
    [| exists JNull; split; [reflexivity | congruence] ..].
  unfold result_of. rewrite get_served.
  destruct (rows_with k (cache w)) as [|r [|r' rest]];
    try (exists JNull; split; [reflexivity | congruence]).
  destruct (expires_at r <? now) eqn:E.
  - exists JNull; split; [reflexivity | congruence].
  - exists (value r). split; [reflexivity|]. intros _. exists r.
    apply Z.ltb_ge in E. auto.
Qed.

(** The table after a [get] is the table before it, or that table without
    the rows under [k]. *)
Lemma get_cache (fs fd : fault) :
  cache (state_after (CacheManager.get now fs fd k) w) = cache w \/
  cache (state_after (CacheManager.get now fs fd k) w) =
  delete_rows k (cache w).
Proof.
  destruct fs as [|e|e]; [| left; reflexivity ..].
  unfold state_after. rewrite get_served.
  destruct (rows_with k (cache w)) as [|r [|r' rest]];
    try (left; reflexivity).
  destruct (expires_at r <? now); [|left; reflexivity].
  simpl. rewrite delete_cache. destruct fd; auto.
Qed.

Lemma set_served (v : json) (ttlMinutes : option Z) :
  in_date_range (expiry now (CacheManager.ttl_or_default ttlMinutes)) = true ->
  CacheManager.set now Served k v ttlMinutes w =
  (Returned true,
   mkWorld
     (upsert_row (mkRow k v (expiry now (CacheManager.ttl_or_default ttlMinutes)))
        (cache w))
     (console w)).
Proof.
  intros Hrange. unfold CacheManager.set, new_Date.
  fold (expiry now (CacheManager.ttl_or_default ttlMinutes)).
  rewrite Hrange. reflexivity.
Qed.

Lemma set_invalid_date (f : fault) (v : json) (ttlMinutes : option Z) :
  in_date_range (expiry now (CacheManager.ttl_or_default ttlMinutes)) = false ->
  result_of (CacheManager.set now f k v ttlMinutes) w = Returned false /\
  cache (state_after (CacheManager.set now f k v ttlMinutes) w) = cache w.
Proof.
  intros Hrange. unfold result_of, state_after, CacheManager.set, new_Date.
  fold (expiry now (CacheManager.ttl_or_default ttlMinutes)).
  rewrite Hrange. split; reflexivity.
Qed.

Lemma set_not_served (f : fault) (v : json) (ttlMinutes : option Z) :
  f <> Served ->
  result_of (CacheManager.set now f k v ttlMinutes) w = Returned false /\
  cache (state_after (CacheManager.set now f k v ttlMinutes) w) = cache w.
Proof.
  intros Hf. unfold result_of, state_after, CacheManager.set, new_Date.
  destruct (in_date_range _); destruct f; try congruence; split; reflexivity.
Qed.

(** [set] returns [true] exactly when the date is valid and the upsert is
    served. *)
Lemma set_true_inv (f : fault) (v : json) (ttlMinutes : option Z) :
  result_of (CacheManager.set now f k v ttlMinutes) w = Returned true ->
  f = Served /\
  in_date_range (expiry now (CacheManager.ttl_or_default ttlMinutes)) = true.
Proof.
  intros Hres.
  destruct (in_date_range (expiry now (CacheManager.ttl_or_default ttlMinutes)))
    eqn:Hrange.
  - split; [|reflexivity].
    destruct f as [|e|e]; [reflexivity | exfalso ..].
    + destruct (set_not_served (ErrorResponse e) v ttlMinutes) as [H _];
        [discriminate|]. rewrite H in Hres. discriminate.
    + destruct (set_not_served (Rejects e) v ttlMinutes) as [H _];
        [discriminate|]. rewrite H in Hres. discriminate.
  - destruct (set_invalid_date f v ttlMinutes Hrange) as [H _].
    rewrite H in Hres. discriminate.
Qed.

Lemma set_returns (f : fault) (v : json) (ttlMinutes : option Z) :
  exists b, result_of (CacheManager.set now f k v ttlMinutes) w = Returned b.
Proof.
  destruct (in_date_range (expiry now (CacheManager.ttl_or_default ttlMinutes)))
    eqn:Hrange.
  - destruct f as [|e|e].
    + exists true. unfold result_of. now rewrite set_served.
    + exists false. now apply set_not_served.
    + exists false. now apply set_not_served.
  - exists false. now apply set_invalid_date.
Qed.

End Operations.

(** * The primary key along a history *)

Lemma set_cache (now : Z) (f : fault) (k : string) (v : json)
    (ttlMinutes : option Z) (w : world) :
  cache (state_after (CacheManager.set now f k v ttlMinutes) w) = cache w \/
  cache (state_after (CacheManager.set now f k v ttlMinutes) w) =
  upsert_row (mkRow k v (expiry now (CacheManager.ttl_or_default ttlMinutes)))
    (cache w).
Proof.
  destruct (in_date_range (expiry now (CacheManager.ttl_or_default ttlMinutes)))
    eqn:Hrange.
  - destruct f as [|e|e].
    + right. unfold state_after. now rewrite set_served.
    + left. now apply set_not_served.
    + left. now apply set_not_served.
  - left. now apply set_invalid_date.
Qed.

Lemma run_call_primary_key (c : call) (w : world) :
  primary_key (cache w) -> primary_key (cache (run_call c w)).
Proof.
  intros Hpk. destruct c as [now fs fd k | now f k v ttl | f k]; simpl.
  - destruct (get_cache now k w fs fd) as [-> | ->];
      [assumption | now apply delete_rows_primary_key].
  - destruct (set_cache now f k v ttl w) as [-> | ->];
      [assumption | now apply upsert_row_primary_key].
  - rewrite delete_cache.
    destruct f; [now apply delete_rows_primary_key | assumption ..].
Qed.

Lemma run_calls_primary_key (cs : list call) (w : world) :
  primary_key (cache w) -> primary_key (cache (run_calls cs w)).
Proof.
  revert w. induction cs as [|c cs IH]; intros w Hpk; simpl.
  - assumption.
  - apply IH. now apply run_call_primary_key.
Qed.

Lemma fresh_primary_key : primary_key (cache fresh).
Proof. constructor. Qed.

(** * The claims *)

(** ** C1 *)

(** C1, as the code has it: [set] checks neither the key nor the
    time-to-live.  A call with the empty key or a time-to-live of zero or
    less is not rejected and never throws; it returns [true] exactly when
    the expiry is a valid date and the upsert is served, then the table holds
    the row (key, value, now + ttl minutes) under the key, also under [""];
    when it returns [false] the table is as before. *)
Theorem set_accepts_empty_key_and_nonpositive_ttl
    (now : Z) (f : fault) (k : string) (v : json) (ttl : Z) (w : world) :
  k = "" \/ ttl <= 0 ->
  primary_key (cache w) ->
  exists b : bool,
    result_of (CacheManager.set now f k v (Some ttl)) w = Returned b /\
    (b = true <-> f = Served /\ in_date_range (now + ttl * 60 * 1000) = true) /\
    (b = true ->
     rows_with k (cache (state_after (CacheManager.set now f k v (Some ttl)) w))
     = [mkRow k v (now + ttl * 60 * 1000)]) /\
    (b = false ->
     cache (state_after (CacheManager.set now f k v (Some ttl)) w) = cache w).
Proof.
  intros _ Hpk. fold (expiry now ttl).
  assert (Hno : forall f',
             f' <> Served \/ in_date_range (expiry now ttl) = false ->
             result_of (CacheManager.set now f' k v (Some ttl)) w
             = Returned false /\
             cache (state_after (CacheManager.set now f' k v (Some ttl)) w)
             = cache w).
  { intros f' [Hf | Hrange].
    - now apply set_not_served.
    - now apply set_invalid_date. }
  destruct (in_date_range (expiry now ttl)) eqn:Hrange.
  - destruct f as [|e|e].
    + exists true. unfold result_of, state_after.
      rewrite set_served by exact Hrange. simpl.
      split; [reflexivity|]. split; [tauto|]. split; [|discriminate].
      intros _. now apply (rows_with_upsert (mkRow k v (expiry now ttl))).
    + exists false. destruct (Hno (ErrorResponse e)) as [Hres Hcache];
        [left; discriminate|].
      split; [exact Hres|]. split; [|split; [discriminate | now intros _]].
      split; [discriminate | intros [? _]; discriminate].
    + exists false. destruct (Hno (Rejects e)) as [Hres Hcache];
        [left; discriminate|].
      split; [exact Hres|]. split; [|split; [discriminate | now intros _]].
      split; [discriminate | intros [? _]; discriminate].
  - exists false. destruct (Hno f) as [Hres Hcache]; [now right|].
    split; [exact Hres|]. split; [|split; [discriminate | now intros _]].
    split; [discriminate | intros [_ ?]; discriminate].
Qed.

(** C1 as stated fails: [set("", "v", 60)] and [set("k", "v", 0)] both
    return [true], and the first creates a row under [""]. *)
Lemma set_empty_key_and_zero_ttl_stored :
  CacheManager.set 1000 Served "" (JString "v") (Some 60) fresh =
    (Returned true, mkWorld [mkRow "" (JString "v") 3601000] []) /\
  CacheManager.set 1000 Served "k" (JString "v") (Some 0) fresh =
    (Returned true, mkWorld [mkRow "k" (JString "v") 1000] []).
Proof. split; reflexivity. Qed.

Lemma set_accepts_empty_key_witness :
  exists b : bool,
    result_of (CacheManager.set 1000 Served "" (JString "v") (Some 60)) fresh
    = Returned b /\
    (b = true <->
     Served = Served /\ in_date_range (1000 + 60 * 60 * 1000) = true) /\
    (b = true ->
     rows_with ""
       (cache (state_after
                 (CacheManager.set 1000 Served "" (JString "v") (Some 60))
                 fresh))
     = [mkRow "" (JString "v") (1000 + 60 * 60 * 1000)]) /\
    (b = false ->
     cache (state_after
              (CacheManager.set 1000 Served "" (JString "v") (Some 60)) fresh)
     = cache fresh).
Proof.
  apply (set_accepts_empty_key_and_nonpositive_ttl
           1000 Served "" (JString "v") 60 fresh).
  - left. reflexivity.
  - exact fresh_primary_key.
Defined.

(** ** C2 *)

Lemma rows_with_In (k : string) (r : row) (t : table) :
  rows_with k t = [r] -> In r t /\ key r = k.
Proof.
  intros Hrow. assert (Hin : In r (rows_with k t)) by (rewrite Hrow; now left).
  apply filter_In in Hin. destruct Hin as [Hin Hk].
  apply has_key_true in Hk. now split.
Qed.

(** C2: [get] never returns a value whose [expires_at] is strictly before
    the clock reading of its check.  For every key, table and answer of the
    store, [get] returns, and what it returns other than [null] is the value
    of a stored row under the key with [now <= expires_at].  When the stored
    row is expired, [get] returns [null] whether the eviction is served or
    not.  A served eviction deletes the entry: no row is left under the key,
    and the rows of the other keys stay.  A failed one leaves the table
    alone, the stale row with it, and a later [get] still returns [null].
    When the stored row is not expired and the select is served, [get]
    returns its value and changes nothing. *)
Theorem get_never_returns_expired
    (now : Z) (fs fd : fault) (k : string) (w : world) :
  primary_key (cache w) ->
  (exists v,
      result_of (CacheManager.get now fs fd k) w = Returned v /\
      (v <> JNull ->
       exists r, In r (cache w) /\ key r = k /\ value r = v /\
                 now <= expires_at r)) /\
  (forall r, In r (cache w) -> key r = k ->
     (expires_at r < now ->
        result_of (CacheManager.get now fs fd k) w = Returned JNull /\
        (fs = Served ->
         cache (state_after (CacheManager.get now fs fd k) w) =
         match fd with
         | Served => delete_rows k (cache w)
         | _ => cache w
         end) /\
        (fs = Served -> fd = Served ->
         rows_with k (cache (state_after (CacheManager.get now fs fd k) w))
         = [] /\
         ~ In k
           (map key (cache (state_after (CacheManager.get now fs fd k) w))) /\
         (forall k', k' <> k ->
            rows_with k'
              (cache (state_after (CacheManager.get now fs fd k) w))
            = rows_with k' (cache w))) /\
        (fs = Served -> fd <> Served ->
         In r (cache (state_after (CacheManager.get now fs fd k) w)) /\
         forall now' fs' fd', now <= now' ->
           result_of (CacheManager.get now' fs' fd' k)
             (state_after (CacheManager.get now fs fd k) w)
           = Returned JNull)) /\
     (now <= expires_at r -> fs = Served ->
        CacheManager.get now fs fd k w = (Returned (value r), w))).
Proof.
  intros Hpk.
  destruct (get_result now k w fs fd) as [v [Hres Hv]].
  split.
  { exists v. split; [exact Hres|]. intros Hnn.
    destruct (Hv Hnn) as [r [Hrow [Hval Hlive]]].
    apply rows_with_In in Hrow. exists r. tauto. }
  intros r Hin Hk. subst k.
  pose proof (rows_with_present r (cache w) Hpk Hin) as Hrow.
  split.
  - intros Hold.
    assert (Hstate : fs = Served ->
              cache (state_after (CacheManager.get now fs fd (key r)) w) =
              match fd with
              | Served => delete_rows (key r) (cache w)
              | _ => cache w
              end).
    { intros ->. unfold state_after at 1.
      rewrite (get_expired now (key r) w fd r Hrow Hold). simpl.
      apply delete_cache. }
    split; [|split; [exact Hstate | split]].
    + rewrite Hres. f_equal.
      destruct v; try reflexivity;
        (destruct Hv as [r' [Hrow' [_ Hlive]]]; [discriminate|];
         rewrite Hrow in Hrow'; injection Hrow' as <-; lia).
    + intros Hfs ->. rewrite (Hstate Hfs).
      split; [apply rows_with_delete|].
      split; [apply delete_rows_absent|].
      intros k' Hne. now apply rows_with_delete_other.
    + intros Hfs Hfd.
      assert (Hsame :
                cache (state_after (CacheManager.get now fs fd (key r)) w)
                = cache w).
      { rewrite (Hstate Hfs). destruct fd; [contradiction | reflexivity ..]. }
      split; [now rewrite Hsame|].
      intros now' fs' fd' Hlater.
      destruct fs' as [|e|e]; [|reflexivity ..].
      unfold result_of.
      rewrite (get_expired now' (key r) _ fd' r); [reflexivity| |lia].
      now rewrite Hsame.
  - intros Hlive ->. now apply get_live.
Qed.

(** On a table whose one row expired at 500, a [get] at 1000 with the store
    serving returns [null] and leaves no row under the key. *)
Lemma get_never_returns_expired_witness :
  result_of (CacheManager.get 1000 Served Served "geocode_manhattan")
    (mkWorld [stale_row] []) = Returned JNull /\
  rows_with "geocode_manhattan"
    (cache (state_after
              (CacheManager.get 1000 Served Served "geocode_manhattan")
              (mkWorld [stale_row] []))) = [] /\
  ~ In "geocode_manhattan"
      (map key
         (cache (state_after
                   (CacheManager.get 1000 Served Served "geocode_manhattan")
                   (mkWorld [stale_row] [])))).
Proof.
  assert (Hpk : primary_key (cache (mkWorld [stale_row] [])))
    by (repeat constructor; simpl; tauto).
  destruct (get_never_returns_expired 1000 Served Served "geocode_manhattan"
              (mkWorld [stale_row] []) Hpk) as [_ Hrow].
  destruct (Hrow stale_row (or_introl eq_refl) eq_refl) as [Hexpired _].
  destruct Hexpired as [Hnull [_ [Hgone _]]]; [simpl; lia|].
  destruct (Hgone eq_refl eq_refl) as [Hnone [Hnot _]].
  split; [exact Hnull | split; [exact Hnone | exact Hnot]].
Defined.

(** ** C3 *)

(** C3, as the code has it: [set] stores the expiry the caller's
    time-to-live gives, write time plus that many minutes, whatever the
    number; the parameter has a default, though: a call that leaves the
    time-to-live out is the call with 60 minutes. *)
Theorem set_ttl_from_caller_or_sixty
    (now : Z) (f : fault) (k : string) (v : json) (ttl : Z) (w : world) :
  primary_key (cache w) ->
  in_date_range (now + ttl * 60 * 1000) = true ->
  (result_of (CacheManager.set now Served k v (Some ttl)) w = Returned true /\
   rows_with k
     (cache (state_after (CacheManager.set now Served k v (Some ttl)) w))
   = [mkRow k v (now + ttl * 60 * 1000)]) /\
  CacheManager.set now f k v None w = CacheManager.set now f k v (Some 60) w.
Proof.
  intros Hpk Hrange. split; [|reflexivity].
  unfold result_of, state_after.
  rewrite (set_served now k w v (Some ttl)) by exact Hrange. simpl.
  split; [reflexivity|].
  now apply (rows_with_upsert (mkRow k v (expiry now ttl))).
Qed.

(** C3 as stated fails: a [set] without a time-to-live stores an entry that
    expires 60 minutes after the write. *)
Lemma set_without_ttl_expires_in_sixty_minutes :
  CacheManager.set 1000 Served "k" (JString "v") None fresh =
  (Returned true, mkWorld [mkRow "k" (JString "v") (1000 + 60 * 60 * 1000)] []).
Proof. reflexivity. Qed.

Lemma set_ttl_from_caller_or_sixty_witness :
  (result_of (CacheManager.set 1000 Served "k" (JString "v") (Some 1440)) fresh
   = Returned true /\
   rows_with "k"
     (cache (state_after
               (CacheManager.set 1000 Served "k" (JString "v") (Some 1440))
               fresh))
   = [mkRow "k" (JString "v") (1000 + 1440 * 60 * 1000)]) /\
  CacheManager.set 1000 Served "k" (JString "v") None fresh =
  CacheManager.set 1000 Served "k" (JString "v") (Some 60) fresh.
Proof.
  apply (set_ttl_from_caller_or_sixty
           1000 Served "k" (JString "v") 1440 fresh).
  - exact fresh_primary_key.
  - reflexivity.
Defined.

(** ** C4 *)

(** A served [set] leaves exactly its row under the key. *)
Lemma set_served_row (now : Z) (k : string) (v : json) (ttlMinutes : option Z)
    (w : world) :
  primary_key (cache w) ->
  in_date_range (expiry now (CacheManager.ttl_or_default ttlMinutes)) = true ->
  rows_with k
    (cache (state_after (CacheManager.set now Served k v ttlMinutes) w))
  = [mkRow k v (expiry now (CacheManager.ttl_or_default ttlMinutes))].
Proof.
  intros Hpk Hrange. unfold state_after.
  rewrite set_served by exact Hrange. simpl.
  now apply
    (rows_with_upsert
       (mkRow k v (expiry now (CacheManager.ttl_or_default ttlMinutes)))).
Qed.

(** C4: after a [set(key, value, ttl)] that returned [true], with a non-empty
    key and [ttl > 0], a [get(key)] whose select is served returns [value]
    and changes nothing: at the instant of the write, and at any instant that
    is not past the stored expiry. *)
Theorem get_after_set_returns_value
    (now : Z) (f fd : fault) (k : string) (v : json) (ttl : Z) (w : world) :
  k <> "" ->
  0 < ttl ->
  primary_key (cache w) ->
  result_of (CacheManager.set now f k v (Some ttl)) w = Returned true ->
  CacheManager.get now Served fd k
    (state_after (CacheManager.set now f k v (Some ttl)) w)
  = (Returned v, state_after (CacheManager.set now f k v (Some ttl)) w) /\
  (forall now', now' <= now + ttl * 60 * 1000 ->
     CacheManager.get now' Served fd k
       (state_after (CacheManager.set now f k v (Some ttl)) w)
     = (Returned v, state_after (CacheManager.set now f k v (Some ttl)) w)).
Proof.
  intros _ Hpos Hpk Hok.
  apply set_true_inv in Hok. destruct Hok as [-> Hrange].
  pose proof (set_served_row now k v (Some ttl) w Hpk Hrange) as Hrow.
  assert (Hlive : forall now', now' <= now + ttl * 60 * 1000 ->
            CacheManager.get now' Served fd k
              (state_after (CacheManager.set now Served k v (Some ttl)) w)
            = (Returned v,
               state_after (CacheManager.set now Served k v (Some ttl)) w)).
  { intros now' Hle.
    now apply (get_live now' k _ fd (mkRow k v (expiry now ttl))). }
  split; [apply Hlive; lia | exact Hlive].
Qed.

(** The geocoding scenario: cached for 24 hours, read back one second
    later. *)
Lemma get_after_set_returns_value_witness :
  CacheManager.get 1000 Served Served "geocode_manhattan"
    (state_after
       (CacheManager.set 1000 Served "geocode_manhattan" manhattan (Some 1440))
       fresh)
  = (Returned manhattan,
     state_after
       (CacheManager.set 1000 Served "geocode_manhattan" manhattan (Some 1440))
       fresh) /\
  CacheManager.get 2000 Served Served "geocode_manhattan"
    (state_after
       (CacheManager.set 1000 Served "geocode_manhattan" manhattan (Some 1440))
       fresh)
  = (Returned manhattan,
     state_after
       (CacheManager.set 1000 Served "geocode_manhattan" manhattan (Some 1440))
       fresh).
Proof.
  assert (H := get_after_set_returns_value 1000 Served Served
                 "geocode_manhattan" manhattan 1440 fresh).
  destruct H as [Hnow Hlater].
  - discriminate.
  - lia.
  - exact fresh_primary_key.
  - reflexivity.
  - split; [exact Hnow | apply Hlater; lia].
Defined.

(** ** C5 *)

(** C5: along every history of calls from the empty table, whatever the
    store answers, no key has more than one row.  And a [set] on a key that a
    [set] has just written replaces value and expiry: the one row under the
    key is the second call's, and a [get] not past its expiry returns the
    second value. *)
Theorem set_replaces_the_entry (cs : list call) :
  (forall k', (List.length (rows_with k' (cache (run_calls cs fresh))) <= 1)%nat)
  /\
  (forall (now1 now2 now3 : Z) (f1 f2 fd : fault) (k : string)
          (v1 v2 : json) (ttl1 ttl2 : Z),
     let w := run_calls cs fresh in
     let w1 := state_after (CacheManager.set now1 f1 k v1 (Some ttl1)) w in
     let w2 := state_after (CacheManager.set now2 f2 k v2 (Some ttl2)) w1 in
     result_of (CacheManager.set now1 f1 k v1 (Some ttl1)) w = Returned true ->
     result_of (CacheManager.set now2 f2 k v2 (Some ttl2)) w1 = Returned true ->
     now3 <= now2 + ttl2 * 60 * 1000 ->
     rows_with k (cache w2) = [mkRow k v2 (now2 + ttl2 * 60 * 1000)] /\
     CacheManager.get now3 Served fd k w2 = (Returned v2, w2)).
Proof.
  assert (Hpk : primary_key (cache (run_calls cs fresh)))
    by (apply run_calls_primary_key, fresh_primary_key).
  split.
  - intros k'. now apply rows_with_at_most_one.
  - intros now1 now2 now3 f1 f2 fd k v1 v2 ttl1 ttl2 w w1 w2 Hok1 Hok2 Hlive.
    apply set_true_inv in Hok1. destruct Hok1 as [Hf1 Hrange1].
    apply set_true_inv in Hok2. destruct Hok2 as [Hf2 Hrange2].
    subst f1 f2.
    assert (Hpk1 : primary_key (cache w1)).
    { apply (run_call_primary_key
               (CallSet now1 Served k v1 (Some ttl1)) w Hpk). }
    assert (Hrow : rows_with k (cache w2) = [mkRow k v2 (expiry now2 ttl2)])
      by now apply (set_served_row now2 k v2 (Some ttl2) w1).
    split; [exact Hrow|].
    now apply (get_live now3 k w2 fd (mkRow k v2 (expiry now2 ttl2))).
Qed.

Lemma set_replaces_the_entry_witness :
  rows_with "k"
    (cache (run_calls [CallSet 1000 Served "k" (JString "v1") (Some 60);
                       CallSet 2000 Served "k" (JString "v2") (Some 60)]
              fresh))
  = [mkRow "k" (JString "v2") (2000 + 60 * 60 * 1000)] /\
  CacheManager.get 3000 Served Served "k"
    (run_calls [CallSet 1000 Served "k" (JString "v1") (Some 60);
                CallSet 2000 Served "k" (JString "v2") (Some 60)] fresh)
  = (Returned (JString "v2"),
     run_calls [CallSet 1000 Served "k" (JString "v1") (Some 60);
                CallSet 2000 Served "k" (JString "v2") (Some 60)] fresh).
Proof.
  apply (proj2 (set_replaces_the_entry [])
           1000 2000 3000 Served Served Served "k"
           (JString "v1") (JString "v2") 60 60).
  - reflexivity.
  - reflexivity.
  - simpl. lia.
Defined.

(** ** C6 *)

(** C6: a served [set(k, v, 1)] at [now] stores the expiry
    [now + 1 * 60 * 1000]; a [get] at [now] returns [v]; a [get] 61 seconds
    later returns [null], whatever the store answers. *)
Theorem expiry_boundary_one_minute
    (now : Z) (fs fd : fault) (k : string) (v : json) (w : world) :
  primary_key (cache w) ->
  in_date_range (now + 1 * 60 * 1000) = true ->
  result_of (CacheManager.set now Served k v (Some 1)) w = Returned true /\
  rows_with k
    (cache (state_after (CacheManager.set now Served k v (Some 1)) w))
  = [mkRow k v (now + 1 * 60 * 1000)] /\
  CacheManager.get now Served fd k
    (state_after (CacheManager.set now Served k v (Some 1)) w)
  = (Returned v, state_after (CacheManager.set now Served k v (Some 1)) w) /\
  result_of (CacheManager.get (now + 61 * 1000) fs fd k)
    (state_after (CacheManager.set now Served k v (Some 1)) w)
  = Returned JNull.
Proof.
  intros Hpk Hrange.
  pose proof (set_served_row now k v (Some 1) w Hpk Hrange) as Hrow.
  split; [|split; [exact Hrow | split]].
  - unfold result_of. now rewrite (set_served now k w v (Some 1)).
  - apply (get_live now k _ fd (mkRow k v (expiry now 1)) Hrow).
    unfold expiry. simpl. lia.
  - destruct fs as [|e|e]; [|reflexivity ..].
    unfold result_of.
    rewrite (get_expired (now + 61 * 1000) k _ fd _ Hrow); [reflexivity|].
    unfold expiry. simpl. lia.
Qed.

Lemma expiry_boundary_one_minute_witness :
  result_of (CacheManager.set 1000 Served "k" (JString "v") (Some 1)) fresh
  = Returned true /\
  rows_with "k"
    (cache (state_after
              (CacheManager.set 1000 Served "k" (JString "v") (Some 1)) fresh))
  = [mkRow "k" (JString "v") (1000 + 1 * 60 * 1000)] /\
  CacheManager.get 1000 Served Served "k"
    (state_after (CacheManager.set 1000 Served "k" (JString "v") (Some 1))
       fresh)
  = (Returned (JString "v"),
     state_after (CacheManager.set 1000 Served "k" (JString "v") (Some 1))
       fresh) /\
  result_of (CacheManager.get (1000 + 61 * 1000) Served Served "k")
    (state_after (CacheManager.set 1000 Served "k" (JString "v") (Some 1))
       fresh)
  = Returned JNull.
Proof.
  apply (expiry_boundary_one_minute 1000 Served Served "k" (JString "v") fresh).
  - exact fresh_primary_key.
  - reflexivity.
Defined.

(** ** C7 *)

(** C7: when the store does not serve the request, be it an error response
    or a rejected promise (a refused connection, a failed query, a body that
    does not decode), [get] returns [null], [set] and [delete] return
    [false], and the table is as before; and no answer of the store makes any
    of the three throw. *)
Theorem storage_failures_are_absorbed
    (f : fault) (now : Z) (fd : fault) (k : string) (v : json)
    (ttlMinutes : option Z) (w : world) :
  f <> Served ->
  (result_of (CacheManager.get now f fd k) w = Returned JNull /\
   result_of (CacheManager.set now f k v ttlMinutes) w = Returned false /\
   result_of (CacheManager.delete f k) w = Returned false) /\
  (cache (state_after (CacheManager.get now f fd k) w) = cache w /\
   cache (state_after (CacheManager.set now f k v ttlMinutes) w) = cache w /\
   cache (state_after (CacheManager.delete f k) w) = cache w) /\
  (forall (f1 f2 : fault) (e : js_error),
     result_of (CacheManager.get now f1 f2 k) w <> Thrown e /\
     result_of (CacheManager.set now f1 k v ttlMinutes) w <> Thrown e /\
     result_of (CacheManager.delete f1 k) w <> Thrown e).
Proof.
  intros Hf.
  destruct (get_not_served now k w f fd Hf) as [Hg Hgc].
  destruct (set_not_served now k w f v ttlMinutes Hf) as [Hs Hsc].
  destruct (delete_not_served k w f Hf) as [Hd Hdc].
  split; [auto|]. split; [auto|].
  intros f1 f2 e.
  destruct (get_result now k w f1 f2) as [x [Hx _]].
  destruct (set_returns now k w f1 v ttlMinutes) as [b Hb].
  destruct (delete_returns k w f1) as [b' Hb'].
  rewrite Hx, Hb, Hb'. repeat split; discriminate.
Qed.

Lemma storage_failures_are_absorbed_witness :
  (result_of
     (CacheManager.get 1000 (Rejects (FetchError "fetch failed")) Served "k")
     fresh = Returned JNull /\
   result_of
     (CacheManager.set 1000 (Rejects (FetchError "fetch failed")) "k"
        (JString "v") (Some 60)) fresh = Returned false /\
   result_of (CacheManager.delete (Rejects (FetchError "fetch failed")) "k")
     fresh = Returned false) /\
  (cache
     (state_after
        (CacheManager.get 1000 (Rejects (FetchError "fetch failed")) Served "k")
        fresh) = cache fresh /\
   cache
     (state_after
        (CacheManager.set 1000 (Rejects (FetchError "fetch failed")) "k"
           (JString "v") (Some 60)) fresh) = cache fresh /\
   cache
     (state_after
        (CacheManager.delete (Rejects (FetchError "fetch failed")) "k") fresh)
   = cache fresh) /\
  (forall (f1 f2 : fault) (e : js_error),
     result_of (CacheManager.get 1000 f1 f2 "k") fresh <> Thrown e /\
     result_of (CacheManager.set 1000 f1 "k" (JString "v") (Some 60)) fresh
     <> Thrown e /\
     result_of (CacheManager.delete f1 "k") fresh <> Thrown e).
Proof.
  apply (storage_failures_are_absorbed (Rejects (FetchError "fetch failed"))
           1000 Served "k" (JString "v") (Some 60) fresh).
  discriminate.
Defined.

(** ** C8 *)

(** C8, as the code has it: with the store serving and the expiry a valid
    date, [set] called twice in a row with the same arguments returns [true]
    both times and leaves the table that the second call alone would leave:
    one row under the key, with the value and with the expiry counted from
    the second call's clock.  That is the state after the first call when
    both calls read the same clock.  A [get] not past the stored expiry
    returns the value after each of the two calls. *)
Theorem set_retry_leaves_latest_call
    (now1 now2 g1 g2 : Z) (fd1 fd2 : fault) (k : string) (v : json) (ttl : Z)
    (w : world) :
  primary_key (cache w) ->
  in_date_range (now1 + ttl * 60 * 1000) = true ->
  in_date_range (now2 + ttl * 60 * 1000) = true ->
  g1 <= now1 + ttl * 60 * 1000 ->
  g2 <= now2 + ttl * 60 * 1000 ->
  let first := CacheManager.set now1 Served k v (Some ttl) in
  let retry := CacheManager.set now2 Served k v (Some ttl) in
  let w1 := state_after first w in
  let w2 := state_after retry w1 in
  result_of first w = Returned true /\
  result_of retry w1 = Returned true /\
  cache w2 = cache (state_after retry w) /\
  rows_with k (cache w2) = [mkRow k v (now2 + ttl * 60 * 1000)] /\
  (now1 = now2 -> w2 = w1) /\
  CacheManager.get g1 Served fd1 k w1 = (Returned v, w1) /\
  CacheManager.get g2 Served fd2 k w2 = (Returned v, w2).
Proof.
  intros Hpk Hrange1 Hrange2 Hg1 Hg2 first retry w1 w2.
  assert (Hpk1 : primary_key (cache w1))
    by apply (run_call_primary_key (CallSet now1 Served k v (Some ttl)) w Hpk).
  pose proof (set_served_row now1 k v (Some ttl) w Hpk Hrange1) as Hrow1.
  pose proof (set_served_row now2 k v (Some ttl) w1 Hpk1 Hrange2) as Hrow2.
  assert (Hw1 : w1 = mkWorld (upsert_row (mkRow k v (expiry now1 ttl)) (cache w))
                       (console w)).
  { unfold w1, first, state_after. now rewrite set_served. }
  assert (Hw2 : w2 = mkWorld (upsert_row (mkRow k v (expiry now2 ttl)) (cache w1))
                       (console w1)).
  { unfold w2, retry, state_after. now rewrite set_served. }
  split; [unfold result_of, first; now rewrite set_served|].
  split; [unfold result_of, retry; now rewrite set_served|].
  split.
  { rewrite Hw2, Hw1. unfold retry, state_after.
    rewrite set_served by exact Hrange2. simpl. now apply upsert_row_twice. }
  split; [exact Hrow2|]. split.
  { intros <-. rewrite Hw2, Hw1. simpl. f_equal.
    now apply upsert_row_twice. }
  split.
  - now apply (get_live g1 k w1 fd1 (mkRow k v (expiry now1 ttl))).
  - now apply (get_live g2 k w2 fd2 (mkRow k v (expiry now2 ttl))).
Qed.

(** C8 as stated fails: a retry one second later leaves another state than
    the single call did, the expiry has moved by that second. *)
Lemma set_retry_moves_the_expiry :
  cache (run_calls [CallSet 1000 Served "k" (JString "v") (Some 60)] fresh)
  = [mkRow "k" (JString "v") 3601000] /\
  cache (run_calls [CallSet 1000 Served "k" (JString "v") (Some 60);
                    CallSet 2000 Served "k" (JString "v") (Some 60)] fresh)
  = [mkRow "k" (JString "v") 3602000].
Proof. split; reflexivity. Qed.

Lemma set_retry_leaves_latest_call_witness :
  result_of (CacheManager.set 1000 Served "k" (JString "v") (Some 60)) fresh
  = Returned true /\
  result_of (CacheManager.set 2000 Served "k" (JString "v") (Some 60))
    (run_calls [CallSet 1000 Served "k" (JString "v") (Some 60)] fresh)
  = Returned true /\
  cache (run_calls [CallSet 1000 Served "k" (JString "v") (Some 60);
                    CallSet 2000 Served "k" (JString "v") (Some 60)] fresh)
  = cache (run_calls [CallSet 2000 Served "k" (JString "v") (Some 60)] fresh) /\
  rows_with "k"
    (cache (run_calls [CallSet 1000 Served "k" (JString "v") (Some 60);
                       CallSet 2000 Served "k" (JString "v") (Some 60)] fresh))
  = [mkRow "k" (JString "v") (2000 + 60 * 60 * 1000)] /\
  (1000 = 2000 ->
   run_calls [CallSet 1000 Served "k" (JString "v") (Some 60);
              CallSet 2000 Served "k" (JString "v") (Some 60)] fresh
   = run_calls [CallSet 1000 Served "k" (JString "v") (Some 60)] fresh) /\
  CacheManager.get 1500 Served Served "k"
    (run_calls [CallSet 1000 Served "k" (JString "v") (Some 60)] fresh)
  = (Returned (JString "v"),
     run_calls [CallSet 1000 Served "k" (JString "v") (Some 60)] fresh) /\
  CacheManager.get 2500 Served Served "k"
    (run_calls [CallSet 1000 Served "k" (JString "v") (Some 60);
                CallSet 2000 Served "k" (JString "v") (Some 60)] fresh)
  = (Returned (JString "v"),
     run_calls [CallSet 1000 Served "k" (JString "v") (Some 60);
                CallSet 2000 Served "k" (JString "v") (Some 60)] fresh).
Proof.
  apply (set_retry_leaves_latest_call 1000 2000 1500 2500 Served Served
           "k" (JString "v") 60 fresh).
  - exact fresh_primary_key.
  - reflexivity.
  - reflexivity.
  - simpl. lia.
  - simpl. lia.
Defined.

(** ** C9 *)

(** Reads leave the rows under a key as they are, or evict them. *)
Lemma reads_keep_or_evict (k : string) (r : row) (reads : list call)
    (w : world) :
  forallb is_get reads = true ->
  rows_with k (cache w) = [r] \/ rows_with k (cache w) = [] ->
  rows_with k (cache (run_calls reads w)) = [r] \/
  rows_with k (cache (run_calls reads w)) = [].
Proof.
  revert w. induction reads as [|c reads IH]; intros w Hreads Hrows; simpl;
    [exact Hrows|].
  simpl in Hreads. apply andb_true_iff in Hreads. destruct Hreads as [Hc Hreads].
  apply IH; [exact Hreads|].
  destruct c as [now fs fd k' | |]; try discriminate. simpl.
  destruct (get_cache now k' w fs fd) as [-> | ->]; [exact Hrows|].
  destruct (String.eqb_spec k k') as [<- | Hne].
  - right. apply rows_with_delete.
  - now rewrite rows_with_delete_other.
Qed.

(** C9: [set] has no argument check.  For any key, the empty one too, and
    any [ttl <= 0], when the upsert is made and served [set] returns [true]
    and the row under the key is (key, value, now + ttl minutes), an expiry
    at or before the write time; every [get] of the key at a strictly later
    time, straight away or after other reads, returns [null], whatever the
    store answers. *)
Theorem set_nonpositive_ttl_stored_but_never_served
    (now now' : Z) (fs fd : fault) (k : string) (v : json) (ttl : Z)
    (reads : list call) (w : world) :
  ttl <= 0 ->
  primary_key (cache w) ->
  in_date_range (now + ttl * 60 * 1000) = true ->
  forallb is_get reads = true ->
  now < now' ->
  result_of (CacheManager.set now Served k v (Some ttl)) w = Returned true /\
  rows_with k
    (cache (state_after (CacheManager.set now Served k v (Some ttl)) w))
  = [mkRow k v (now + ttl * 60 * 1000)] /\
  now + ttl * 60 * 1000 <= now /\
  result_of (CacheManager.get now' fs fd k)
    (run_calls reads
       (state_after (CacheManager.set now Served k v (Some ttl)) w))
  = Returned JNull.
Proof.
  intros Httl Hpk Hrange Hreads Hlater.
  pose proof (set_served_row now k v (Some ttl) w Hpk Hrange) as Hrow.
  split; [unfold result_of; now rewrite (set_served now k w v (Some ttl))|].
  split; [exact Hrow|]. split; [lia|].
  destruct fs as [|e|e]; [|reflexivity ..].
  unfold result_of. rewrite get_served.
  destruct (reads_keep_or_evict k _ reads _ Hreads (or_introl Hrow))
    as [-> | ->]; [|reflexivity].
  simpl. unfold expiry.
  assert (Hold : (now + ttl * 60 * 1000 <? now') = true)
    by (apply Z.ltb_lt; lia).
  now rewrite Hold.
Qed.

Lemma set_nonpositive_ttl_witness :
  result_of (CacheManager.set 1000 Served "" (JString "v") (Some 0)) fresh
  = Returned true /\
  rows_with ""
    (cache (state_after
              (CacheManager.set 1000 Served "" (JString "v") (Some 0)) fresh))
  = [mkRow "" (JString "v") (1000 + 0 * 60 * 1000)] /\
  1000 + 0 * 60 * 1000 <= 1000 /\
  result_of (CacheManager.get 1001 Served Served "")
    (run_calls [CallGet 1000 Served Served ""; CallGet 1000 Served Served "k"]
       (state_after
          (CacheManager.set 1000 Served "" (JString "v") (Some 0)) fresh))
  = Returned JNull.
Proof.
  apply (set_nonpositive_ttl_stored_but_never_served
           1000 1001 Served Served "" (JString "v") 0
           [CallGet 1000 Served Served ""; CallGet 1000 Served Served "k"]
           fresh).
  - lia.
  - exact fresh_primary_key.
  - reflexivity.
  - reflexivity.
  - lia.
Defined.

(** ** C10 *)

(** C10: the eviction is awaited.  When [get] finds the row expired and the
    delete is served, the state in which [get] returns [null] is the state
    the delete leaves: no row under the key, the other keys' rows
    untouched. *)
Theorem get_returns_after_eviction
    (now : Z) (fd : fault) (k : string) (r : row) (w : world) :
  primary_key (cache w) ->
  In r (cache w) ->
  key r = k ->
  expires_at r < now ->
  fd = Served ->
  CacheManager.get now Served fd k w =
    (Returned JNull, state_after (CacheManager.delete Served k) w) /\
  rows_with k (cache (state_after (CacheManager.get now Served fd k) w)) = []
  /\
  ~ In k (map key (cache (state_after (CacheManager.get now Served fd k) w)))
  /\
  (forall k', k' <> k ->
     rows_with k' (cache (state_after (CacheManager.get now Served fd k) w))
     = rows_with k' (cache w)).
Proof.
  intros Hpk Hin Hk Hold ->. subst k.
  pose proof (rows_with_present r (cache w) Hpk Hin) as Hrow.
  pose proof (get_expired now (key r) w Served r Hrow Hold) as Hget.
  split; [exact Hget|].
  unfold state_after. rewrite Hget. cbn [snd].
  fold (state_after (CacheManager.delete Served (key r)) w).
  rewrite delete_cache.
  split; [apply rows_with_delete|].
  split; [apply delete_rows_absent|].
  intros k' Hne. now apply rows_with_delete_other.
Qed.

Lemma get_returns_after_eviction_witness :
  CacheManager.get 1000 Served Served "geocode_manhattan"
    (mkWorld [stale_row; mkRow "k" (JString "v") 5000] []) =
    (Returned JNull,
     state_after (CacheManager.delete Served "geocode_manhattan")
       (mkWorld [stale_row; mkRow "k" (JString "v") 5000] [])) /\
  rows_with "geocode_manhattan"
    (cache (state_after
              (CacheManager.get 1000 Served Served "geocode_manhattan")
              (mkWorld [stale_row; mkRow "k" (JString "v") 5000] []))) = []
  /\
  ~ In "geocode_manhattan"
      (map key
         (cache (state_after
                   (CacheManager.get 1000 Served Served "geocode_manhattan")
                   (mkWorld [stale_row; mkRow "k" (JString "v") 5000] []))))
  /\
  (forall k', k' <> "geocode_manhattan" ->
     rows_with k'
       (cache (state_after
                 (CacheManager.get 1000 Served Served "geocode_manhattan")
                 (mkWorld [stale_row; mkRow "k" (JString "v") 5000] [])))
     = rows_with k' [stale_row; mkRow "k" (JString "v") 5000]).
Proof.
  apply (get_returns_after_eviction 1000 Served "geocode_manhattan" stale_row
           (mkWorld [stale_row; mkRow "k" (JString "v") 5000] [])).
  - repeat constructor; simpl; intuition discriminate.
  - now left.
  - reflexivity.
  - simpl. lia.
  - reflexivity.
Defined.

(** * Further properties of the cache *)

Lemma delete_rows_without (k : string) (t : table) :
  rows_with k t = [] -> delete_rows k t = t.
Proof.
  unfold rows_with, delete_rows.
  induction t as [|r t IH]; simpl; intros Hnone; [reflexivity|].
  destruct (has_key k r) eqn:E; [discriminate|].
  simpl. f_equal. now apply IH.
Qed.

(** What [get] returns is decided by the rows under its key. *)
Lemma get_result_by_rows (now : Z) (fs fd : fault) (k : string)
    (w1 w2 : world) :
  rows_with k (cache w1) = rows_with k (cache w2) ->
  result_of (CacheManager.get now fs fd k) w1 =
  result_of (CacheManager.get now fs fd k) w2.
Proof.
  intros Hrows. destruct fs as [|e|e]; [|reflexivity ..].
  unfold result_of. rewrite !get_served, Hrows.
  destruct (rows_with k (cache w2)) as [|r [|r' rest]]; try reflexivity.
  now destruct (expires_at r <? now).
Qed.

Lemma get_without_rows (now : Z) (fs fd : fault) (k : string) (w : world) :
  rows_with k (cache w) = [] ->
  result_of (CacheManager.get now fs fd k) w = Returned JNull.
Proof.
  intros Hnone. destruct fs as [|e|e]; [|reflexivity ..].
  unfold result_of. now rewrite get_served, Hnone.
Qed.

(** A call on one key leaves the rows under every other key. *)
Lemma run_call_other_rows (c : call) (k' : string) (w : world) :
  call_key c <> k' ->
  rows_with k' (cache (run_call c w)) = rows_with k' (cache w).
Proof.
  intros Hne. destruct c as [now fs fd k | now f k v ttl | f k]; simpl in *.
  - destruct (get_cache now k w fs fd) as [-> | ->]; [reflexivity|].
    apply rows_with_delete_other. congruence.
  - destruct (set_cache now f k v ttl w) as [-> | ->]; [reflexivity|].
    now apply rows_with_upsert_other.
  - rewrite delete_cache. destruct f; try reflexivity.
    apply rows_with_delete_other. congruence.
Qed.

(** X1: a served [delete] returns [true] whether or not the key is there.
    Afterwards no row is left under the key and [get] returns [null] under
    every answer of the store; the rows of other keys are untouched; and
    when there was no row under the key the table is the same as before. *)
Theorem delete_removes_the_entry
    (now : Z) (fs fd : fault) (k : string) (w : world) :
  result_of (CacheManager.delete Served k) w = Returned true /\
  rows_with k (cache (state_after (CacheManager.delete Served k) w)) = [] /\
  result_of (CacheManager.get now fs fd k)
    (state_after (CacheManager.delete Served k) w) = Returned JNull /\
  (forall k', k' <> k ->
     rows_with k' (cache (state_after (CacheManager.delete Served k) w))
     = rows_with k' (cache w)) /\
  (rows_with k (cache w) = [] ->
   cache (state_after (CacheManager.delete Served k) w) = cache w).
Proof.
  split; [reflexivity|].
  assert (Hgone :
            rows_with k (cache (state_after (CacheManager.delete Served k) w))
            = []) by (rewrite delete_cache; apply rows_with_delete).
  split; [exact Hgone|]. split; [now apply get_without_rows|]. split.
  - intros k' Hne. rewrite delete_cache. now apply rows_with_delete_other.
  - intros Hnone. rewrite delete_cache. now apply delete_rows_without.
Qed.

(** X2: keys do not interfere.  A [get], [set] or [delete] on one key,
    whatever the store answers, leaves the rows under any other key as they
    were, so a [get] of the other key returns what it would have returned
    before. *)
Theorem calls_leave_other_keys
    (c : call) (now : Z) (fs fd : fault) (k' : string) (w : world) :
  call_key c <> k' ->
  rows_with k' (cache (run_call c w)) = rows_with k' (cache w) /\
  result_of (CacheManager.get now fs fd k') (run_call c w) =
  result_of (CacheManager.get now fs fd k') w.
Proof.
  intros Hne.
  pose proof (run_call_other_rows c k' w Hne) as Hrows.
  split; [exact Hrows | now apply get_result_by_rows].
Qed.

Lemma calls_leave_other_keys_witness :
  rows_with "geocode_manhattan"
    (cache (run_call (CallSet 1000 Served "k" (JString "v") (Some 60))
              (mkWorld [stale_row] [])))
  = rows_with "geocode_manhattan" (cache (mkWorld [stale_row] [])) /\
  result_of (CacheManager.get 400 Served Served "geocode_manhattan")
    (run_call (CallSet 1000 Served "k" (JString "v") (Some 60))
       (mkWorld [stale_row] []))
  = result_of (CacheManager.get 400 Served Served "geocode_manhattan")
      (mkWorld [stale_row] []).
Proof.
  apply (calls_leave_other_keys
           (CallSet 1000 Served "k" (JString "v") (Some 60))
           400 Served Served "geocode_manhattan" (mkWorld [stale_row] [])).
  discriminate.
Defined.

Lemma run_call_keeps_absent (c : call) (k : string) (w : world) :
  is_set_on k c = false ->
  rows_with k (cache w) = [] ->
  rows_with k (cache (run_call c w)) = [].
Proof.
  intros Hc Hnone.
  destruct (String.eqb_spec (call_key c) k) as [Hk | Hne];
    [|now rewrite run_call_other_rows].
  destruct c as [now fs fd k0 | now f k0 v ttl | f k0]; simpl in *.
  - destruct (get_cache now k0 w fs fd) as [-> | ->]; [exact Hnone|].
    subst k0. apply rows_with_delete.
  - apply String.eqb_neq in Hc. contradiction.
  - rewrite delete_cache. subst k0.
    destruct f; try exact Hnone. apply rows_with_delete.
Qed.

(** X3: a key that no [set] was called on is absent.  After any history of
    calls from the empty table that has no [set] on the key, there is no row
    under it and [get] returns [null], whatever the store answers. *)
Theorem key_never_set_is_absent
    (cs : list call) (now : Z) (fs fd : fault) (k : string) :
  forallb (fun c => negb (is_set_on k c)) cs = true ->
  rows_with k (cache (run_calls cs fresh)) = [] /\
  result_of (CacheManager.get now fs fd k) (run_calls cs fresh)
  = Returned JNull.
Proof.
  intros Hcs.
  assert (Hnone : forall w, rows_with k (cache w) = [] ->
                            rows_with k (cache (run_calls cs w)) = []).
  { induction cs as [|c cs IH]; intros w Hw; simpl; [exact Hw|].
    simpl in Hcs. apply andb_true_iff in Hcs. destruct Hcs as [Hc Hcs].
    apply negb_true_iff in Hc.
    apply (IH Hcs). now apply run_call_keeps_absent. }
  split; [now apply Hnone|].
  apply get_without_rows. now apply Hnone.
Qed.

Lemma key_never_set_is_absent_witness :
  rows_with "k"
    (cache (run_calls [CallSet 1000 Served "other" (JString "v") (Some 60);
                       CallDelete Served "k";
                       CallGet 2000 Served Served "k"] fresh)) = [] /\
  result_of (CacheManager.get 3000 Served Served "k")
    (run_calls [CallSet 1000 Served "other" (JString "v") (Some 60);
                CallDelete Served "k";
                CallGet 2000 Served Served "k"] fresh)
  = Returned JNull.
Proof.
  apply (key_never_set_is_absent
           [CallSet 1000 Served "other" (JString "v") (Some 60);
            CallDelete Served "k";
            CallGet 2000 Served Served "k"]
           3000 Served Served "k").
  reflexivity.
Defined.

(** X4: the expiry instant itself is still served.  After a served [set] at
    [now], a [get] at exactly [now + ttl * 60 * 1000] returns the value, and
    a [get] one millisecond later returns [null]. *)
Theorem entry_is_served_up_to_its_expiry
    (now : Z) (fs fd : fault) (k : string) (v : json) (ttl : Z) (w : world) :
  primary_key (cache w) ->
  in_date_range (now + ttl * 60 * 1000) = true ->
  CacheManager.get (now + ttl * 60 * 1000) Served fd k
    (state_after (CacheManager.set now Served k v (Some ttl)) w)
  = (Returned v, state_after (CacheManager.set now Served k v (Some ttl)) w) /\
  result_of (CacheManager.get (now + ttl * 60 * 1000 + 1) fs fd k)
    (state_after (CacheManager.set now Served k v (Some ttl)) w)
  = Returned JNull.
Proof.
  intros Hpk Hrange.
  pose proof (set_served_row now k v (Some ttl) w Hpk Hrange) as Hrow.
  split.
  - apply (get_live _ k _ fd (mkRow k v (expiry now ttl)) Hrow).
    unfold expiry. simpl. lia.
  - destruct fs as [|e|e]; [|reflexivity ..].
    unfold result_of.
    rewrite (get_expired _ k _ fd _ Hrow); [reflexivity|].
    unfold expiry. simpl. lia.
Qed.

Lemma entry_is_served_up_to_its_expiry_witness :
  CacheManager.get (1000 + 15 * 60 * 1000) Served Served "k"
    (state_after (CacheManager.set 1000 Served "k" (JString "v") (Some 15))
       fresh)
  = (Returned (JString "v"),
     state_after (CacheManager.set 1000 Served "k" (JString "v") (Some 15))
       fresh) /\
  result_of (CacheManager.get (1000 + 15 * 60 * 1000 + 1) Served Served "k")
    (state_after (CacheManager.set 1000 Served "k" (JString "v") (Some 15))
       fresh)
  = Returned JNull.
Proof.
  apply (entry_is_served_up_to_its_expiry
           1000 Served Served "k" (JString "v") 15 fresh).
  - exact fresh_primary_key.
  - reflexivity.
Defined.

(** * The mock authentication and the role gates *)

Lemma authMiddleware_cases (header : option string) :
  Auth.authMiddleware header =
  match header with
  | None => Auth.Own (Auth.mkUser "contributor" "netrunnerX" "contributor")
  | Some s =>
      if String.eqb s "admin"
      then Auth.Own (Auth.mkUser "admin" "reliefAdmin" "admin")
      else if String.eqb s "viewer"
      then Auth.Own (Auth.mkUser "viewer" "citizen1" "viewer")
      else if Auth.inherited s then Auth.Member s
      else Auth.Own (Auth.mkUser "contributor" "netrunnerX" "contributor")
  end.
Proof.
  destruct header as [s|]; [|reflexivity].
  unfold Auth.authMiddleware.
  destruct (String.eqb_spec s "") as [-> | Hempty]; [reflexivity|].
  destruct (String.eqb_spec s "admin") as [-> | Hadmin]; [reflexivity|].
  destruct (String.eqb_spec s "viewer") as [-> | Hviewer]; [reflexivity|].
  destruct (String.eqb_spec s "contributor") as [-> | Hcontributor];
    [reflexivity|].
  unfold Auth.get_property at 1. cbn [Auth.own_property Auth.mockUsers].
  rewrite (proj2 (String.eqb_neq "admin" s)) by congruence.
  rewrite (proj2 (String.eqb_neq "contributor" s)) by congruence.
  rewrite (proj2 (String.eqb_neq "viewer" s)) by congruence.
  destruct (Auth.inherited s); reflexivity.
Qed.

(** Splits on what the header makes of [req.user]. *)
Ltac by_header header :=
  rewrite (authMiddleware_cases header);
  destruct header as [s|];
  [ destruct (String.eqb_spec s "admin") as [-> | Hadmin];
    [| destruct (String.eqb_spec s "viewer") as [-> | Hviewer];
       [| destruct (Auth.inherited s) eqn:Hinherited ] ]
  | ].

(** X5: [authMiddleware] always sets a user.  The user is the mock
    contributor for every [x-user-id] other than ["admin"], ["viewer"] and
    the names of [Object.prototype] members: for a missing or empty header
    and for any unknown id.  A header that names an [Object.prototype] member
    makes that member the user. *)
Theorem authMiddleware_falls_back_to_contributor (header : option string) :
  Auth.authMiddleware header <> Auth.Undefined /\
  (Auth.authMiddleware header
   = Auth.Own (Auth.mkUser "contributor" "netrunnerX" "contributor")
   <->
   header <> Some "admin" /\ header <> Some "viewer" /\
   forall s, header = Some s -> Auth.inherited s = false) /\
  (forall s, header = Some s -> Auth.inherited s = true ->
             Auth.authMiddleware header = Auth.Member s).
Proof.
  by_header header.
  - split; [discriminate|]. split.
    + split; [discriminate | intros [H _]; congruence].
    + intros s [= <-] H. discriminate.
  - split; [discriminate|]. split.
    + split; [discriminate | intros [_ [H _]]; congruence].
    + intros s [= <-] H. discriminate.
  - split; [discriminate|]. split.
    + split; [discriminate|]. intros [_ [_ H]].
      specialize (H s eq_refl). congruence.
    + now intros s' [= <-] _.
  - split; [discriminate|]. split.
    + split; [|reflexivity]. intros _.
      repeat split; congruence.
    + intros s' [= <-] H. congruence.
  - split; [discriminate|]. split.
    + split; [|reflexivity]. intros _.
      repeat split; discriminate.
    + discriminate.
Qed.

(** X6: the gate of [DELETE /disasters/:id], [requireRole('admin')] behind
    [authMiddleware], lets a request through exactly when its [x-user-id] is
    ["admin"]; every other request, also one without the header, gets
    403. *)
Theorem only_the_admin_header_may_delete (header : option string) :
  (Auth.delete_disaster_access header = Auth.Next <-> header = Some "admin") /\
  (header <> Some "admin" ->
   Auth.delete_disaster_access header =
   Auth.Respond 403 (JObject [("error", JString "Insufficient permissions")])).
Proof.
  unfold Auth.delete_disaster_access. by_header header.
  - split; [split; reflexivity | congruence].
  - split; [split; discriminate | reflexivity].
  - split; [split; [discriminate | congruence] | reflexivity].
  - split; [split; [discriminate | congruence] | reflexivity].
  - split; [split; discriminate | reflexivity].
Qed.

(** X7: the gate of [POST /disasters] and [PUT /disasters/:id],
    [requireRole('contributor')] behind [authMiddleware], stops with 403
    exactly the header ["viewer"] and the headers that name an
    [Object.prototype] member; every other request passes, also one with no
    header or with an unknown id. *)
Theorem contributor_gate_stops_viewers_only (header : option string) :
  (Auth.requireRole "contributor" (Auth.authMiddleware header) = Auth.Next <->
   header <> Some "viewer" /\
   forall s, header = Some s -> Auth.inherited s = false) /\
  (Auth.requireRole "contributor" (Auth.authMiddleware header) <> Auth.Next ->
   Auth.requireRole "contributor" (Auth.authMiddleware header) =
   Auth.Respond 403 (JObject [("error", JString "Insufficient permissions")])).
Proof.
  by_header header.
  - split; [|now intros H]. split; [|reflexivity]. intros _.
    split; [discriminate | now intros s [= <-]].
  - split; [|reflexivity]. split; [discriminate | intros [H _]; congruence].
  - split; [|reflexivity]. split; [discriminate|]. intros [_ H].
    specialize (H s eq_refl). congruence.
  - split; [|now intros H]. split; [|reflexivity]. intros _.
    split; [congruence | now intros s' [= <-]].
  - split; [|now intros H]. split; [|reflexivity]. intros _.
    split; discriminate.
Qed.

(** X8: a gate built on a role name that [roleHierarchy] does not have.  When
    the name is no [Object.prototype] member either, the required level is
    999 and every request gets 403.  When it names an [Object.prototype]
    member, the comparison is against [NaN] and every request passes. *)
Theorem gate_on_unknown_role (requiredRole : string) (header : option string) :
  Auth.own_property Auth.roleHierarchy requiredRole = None ->
  Auth.requireRole requiredRole (Auth.authMiddleware header) =
  if Auth.inherited requiredRole
  then Auth.Next
  else Auth.Respond 403
         (JObject [("error", JString "Insufficient permissions")]).
Proof.
  intros Hunknown.
  assert (Hlevel : Auth.level_or requiredRole 999 =
                   if Auth.inherited requiredRole
                   then Auth.NotANumber else Auth.Level 999).
  { unfold Auth.level_or, Auth.get_property. rewrite Hunknown.
    now destruct (Auth.inherited requiredRole). }
  by_header header; unfold Auth.requireRole; cbn [Auth.role_key Auth.role];
    rewrite Hlevel; destruct (Auth.inherited requiredRole); reflexivity.
Qed.

Lemma gate_on_unknown_role_witness :
  Auth.requireRole "superadmin" (Auth.authMiddleware (Some "admin")) =
  Auth.Respond 403 (JObject [("error", JString "Insufficient permissions")]).
Proof.
  apply (gate_on_unknown_role "superadmin" (Some "admin")). reflexivity.
Defined.

(** X9: [PUT /disasters/:id] reaches its update, for a disaster that exists,
    exactly when the header is ["admin"], or the user is the mock contributor
    and the disaster's [owner_id] is ["contributor"].  A ["viewer"] header is
    stopped with 403 by the gate whatever the fetch would give, and a user
    who passes the gate gets 404 when the disaster does not exist. *)
Theorem put_needs_owner_or_admin (header : option string) (owner_id : string) :
  (Auth.put_disaster_access header (Auth.Found owner_id) = Auth.Next <->
   header = Some "admin" \/
   (owner_id = "contributor" /\
    Auth.authMiddleware header
    = Auth.Own (Auth.mkUser "contributor" "netrunnerX" "contributor"))) /\
  (forall e, Auth.put_disaster_access (Some "viewer") e =
             Auth.Respond 403
               (JObject [("error", JString "Insufficient permissions")])) /\
  (Auth.requireRole "contributor" (Auth.authMiddleware header) = Auth.Next ->
   Auth.put_disaster_access header (Auth.FetchError "PGRST116") =
   Auth.Respond 404 (JObject [("error", JString "Disaster not found")])).
Proof.
  split; [|split; [reflexivity|]].
  - unfold Auth.put_disaster_access. by_header header.
    + split; [now left|]. intros _. cbn -[String.eqb].
      now destruct (String.eqb owner_id "admin").
    + split; [discriminate | intros [H | [_ H]]; discriminate].
    + split; [discriminate | intros [H | [_ H]]; congruence].
    + cbn -[String.eqb].
      destruct (String.eqb_spec owner_id "contributor") as [-> | Hne]; simpl.
      * split; [now right | reflexivity].
      * split; [discriminate | intros [H | [H _]]; congruence].
    + cbn -[String.eqb].
      destruct (String.eqb_spec owner_id "contributor") as [-> | Hne]; simpl.
      * split; [now right | reflexivity].
      * split; [discriminate | intros [H | [H _]]; congruence].
  - intros Hpass. unfold Auth.put_disaster_access. now rewrite Hpass.
Qed.

(** * What reaches the console *)

(** X10: a [false] from [set] or [delete] always comes with one line on the
    console and a [true] with none; [get] logs a select whose promise
    rejects, and drops a select that answers with an error response without
    a line. *)
Theorem failures_on_the_console
    (now : Z) (f fd : fault) (k : string) (v : json) (ttlMinutes : option Z)
    (e : js_error) (w : world) :
  ((result_of (CacheManager.set now f k v ttlMinutes) w = Returned true /\
    console (state_after (CacheManager.set now f k v ttlMinutes) w)
    = console w) \/
   (result_of (CacheManager.set now f k v ttlMinutes) w = Returned false /\
    exists e',
      console (state_after (CacheManager.set now f k v ttlMinutes) w)
      = console w ++ [("Cache set error:", e')])) /\
  ((result_of (CacheManager.delete f k) w = Returned true /\
    console (state_after (CacheManager.delete f k) w) = console w) \/
   (result_of (CacheManager.delete f k) w = Returned false /\
    exists e',
      console (state_after (CacheManager.delete f k) w)
      = console w ++ [("Cache delete error:", e')])) /\
  console (state_after (CacheManager.get now (ErrorResponse e) fd k) w)
  = console w /\
  console (state_after (CacheManager.get now (Rejects e) fd k) w)
  = console w ++ [("Cache get error:", e)].
Proof.
  split; [|split; [|split; reflexivity]].
  - unfold result_of, state_after, CacheManager.set, new_Date.
    destruct (in_date_range _).
    + destruct f as [|e'|e']; [left; split; reflexivity | right ..];
        (split; [reflexivity | exists e'; reflexivity]).
    + right. split; [reflexivity|]. eexists. reflexivity.
  - destruct f as [|e'|e']; [left; split; reflexivity | right ..];
      (split; [reflexivity | exists e'; reflexivity]).
Qed.

(** * The geocoding lookup behind the cache *)

Lemma set_runs (now : Z) (f : fault) (k : string) (v : json)
    (ttlMinutes : option Z) (w : world) :
  exists b,
    CacheManager.set now f k v ttlMinutes w =
    (Returned b, state_after (CacheManager.set now f k v ttlMinutes) w).
Proof.
  destruct (set_returns now k w f v ttlMinutes) as [b Hb]. exists b.
  unfold result_of, state_after in *.
  destruct (CacheManager.set now f k v ttlMinutes w) as [o w']. simpl in *.
  now subst o.
Qed.

Lemma get_runs (now : Z) (fs fd : fault) (k : string) (w : world) :
  exists v,
    CacheManager.get now fs fd k w =
    (Returned v, state_after (CacheManager.get now fs fd k) w).
Proof.
  destruct (get_result now k w fs fd) as [v [Hv _]]. exists v.
  unfold result_of, state_after in *.
  destruct (CacheManager.get now fs fd k w) as [o w']. simpl in *.
  now subst o.
Qed.

(** [geocodeLocation], by what its [get] returned. *)
Lemma geocodeLocation_by_read (G : geocoding) (A : cache_answers)
    (locationName : string) (w : world) (cached : json) :
  result_of
    (CacheManager.get (read_at A) (read_select A) (read_delete A)
       (geocode_key G locationName)) w = Returned cached ->
  let w1 :=
    state_after
      (CacheManager.get (read_at A) (read_select A) (read_delete A)
         (geocode_key G locationName)) w in
  geocodeLocation G A locationName w =
  if truthy cached
  then (Returned (cached, []), w1)
  else
    (Returned (geocode_uncached G locationName),
     if truthy (fst (geocode_uncached G locationName))
     then state_after
            (CacheManager.set (write_at A) (write_fault A)
               (geocode_key G locationName)
               (fst (geocode_uncached G locationName)) (Some 1440)) w1
     else w1).
Proof.
  intros Hread w1. unfold geocodeLocation, bind.
  destruct (get_runs (read_at A) (read_select A) (read_delete A)
              (geocode_key G locationName) w) as [v Hv].
  unfold result_of in Hread. rewrite Hv in Hread. simpl in Hread.
  injection Hread as ->. rewrite Hv. fold w1.
  destruct (truthy cached); [reflexivity|].
  destruct (geocode_uncached G locationName) as [coordinates asked].
  cbn [fst]. destruct (truthy coordinates); [|reflexivity].
  destruct (set_runs (write_at A) (write_fault A) (geocode_key G locationName)
              coordinates (Some 1440) w1) as [b Hb].
  rewrite Hb. reflexivity.
Qed.

(** A lookup that goes to the services asks at least one of them. *)
Lemma geocode_uncached_asks (G : geocoding) (locationName : string) :
  snd (geocode_uncached G locationName) <> [].
Proof.
  unfold geocode_uncached.
  destruct (GOOGLE_MAPS_API_KEY G); cbn;
    repeat match goal with
           | |- context [if ?b then _ else _] => destruct b; cbn
           end; discriminate.
Qed.

(** X11: a cache hit asks no service.  When the table holds a row under the
    name's key that is not expired and whose value is truthy, and the select
    is served, [geocodeLocation] returns that value, awaits none of the three
    services and changes nothing. *)
Theorem geocodeLocation_hit
    (G : geocoding) (A : cache_answers) (locationName : string) (r : row)
    (w : world) :
  primary_key (cache w) ->
  In r (cache w) ->
  key r = geocode_key G locationName ->
  read_at A <= expires_at r ->
  truthy (value r) = true ->
  read_select A = Served ->
  geocodeLocation G A locationName w = (Returned (value r, []), w).
Proof.
  intros Hpk Hin Hk Hlive Htruthy Hserved.
  pose proof (rows_with_present r (cache w) Hpk Hin) as Hrow.
  rewrite Hk in Hrow.
  pose proof (get_live (read_at A) (geocode_key G locationName) w
                (read_delete A) r Hrow Hlive) as Hget.
  rewrite <- Hserved in Hget.
  rewrite (geocodeLocation_by_read G A locationName w (value r));
    [|unfold result_of; now rewrite Hget].
  rewrite Htruthy. unfold state_after. now rewrite Hget.
Qed.

Lemma geocodeLocation_hit_witness :
  geocodeLocation (osm_only JNull) (healthy_at 1000 1200) "Manhattan"
    (mkWorld [mkRow "geocode_TWFuaGF0dGFu" manhattan 5000] [])
  = (Returned (manhattan, []),
     mkWorld [mkRow "geocode_TWFuaGF0dGFu" manhattan 5000] []).
Proof.
  apply (geocodeLocation_hit (osm_only JNull) (healthy_at 1000 1200)
           "Manhattan" (mkRow "geocode_TWFuaGF0dGFu" manhattan 5000)
           (mkWorld [mkRow "geocode_TWFuaGF0dGFu" manhattan 5000] [])).
  - repeat constructor. simpl. tauto.
  - now left.
  - reflexivity.
  - simpl. lia.
  - reflexivity.
  - reflexivity.
Defined.

(** X12: the cache is advisory for the lookup.  Whatever the table holds and
    whatever the store answers, [geocodeLocation] returns; what it returns is
    either a truthy value of a stored, unexpired row under the name's key,
    with no service asked, or exactly what the three fallbacks give.  With a
    select that is not served it is always the latter. *)
Theorem geocodeLocation_survives_the_store
    (G : geocoding) (A : cache_answers) (locationName : string) (w : world) :
  ((exists c r,
       result_of (geocodeLocation G A locationName) w = Returned (c, []) /\
       truthy c = true /\
       In r (cache w) /\ key r = geocode_key G locationName /\
       value r = c /\ read_at A <= expires_at r) \/
   result_of (geocodeLocation G A locationName) w
   = Returned (geocode_uncached G locationName)) /\
  (read_select A <> Served ->
   result_of (geocodeLocation G A locationName) w
   = Returned (geocode_uncached G locationName)).
Proof.
  destruct (get_result (read_at A) (geocode_key G locationName) w
              (read_select A) (read_delete A)) as [v [Hv Hrow]].
  pose proof (geocodeLocation_by_read G A locationName w v Hv) as Hrun.
  cbv zeta in Hrun. split.
  - unfold result_of at 1 2. rewrite Hrun.
    destruct (truthy v) eqn:Htruthy; [left | right; reflexivity].
    assert (Hnn : v <> JNull) by (intros ->; discriminate).
    destruct (Hrow Hnn) as [r [Hrows [Hval Hlive]]].
    apply rows_with_In in Hrows. exists v, r. tauto.
  - intros Hdown.
    destruct (get_not_served (read_at A) (geocode_key G locationName) w
                (read_select A) (read_delete A) Hdown) as [Hnull _].
    rewrite Hv in Hnull. injection Hnull as ->.
    unfold result_of. now rewrite Hrun.
Qed.

(** X13: a found location is asked for once a day.  When a lookup missed the
    cache, the services found coordinates and the [set] was served, a second
    lookup of the same name whose select is served, made no later than 1440
    minutes after the write, returns the same coordinates without asking any
    service, whatever the services would say by then. *)
Theorem geocodeLocation_second_lookup_is_cached
    (G G' : geocoding) (A A' : cache_answers) (locationName : string)
    (w : world) :
  primary_key (cache w) ->
  result_of (geocodeLocation G A locationName) w
  = Returned (geocode_uncached G locationName) ->
  truthy (fst (geocode_uncached G locationName)) = true ->
  write_fault A = Served ->
  in_date_range (write_at A + 1440 * 60 * 1000) = true ->
  base64 G' = base64 G ->
  read_select A' = Served ->
  read_at A' <= write_at A + 1440 * 60 * 1000 ->
  geocodeLocation G' A' locationName
    (state_after (geocodeLocation G A locationName) w)
  = (Returned (fst (geocode_uncached G locationName), []),
     state_after (geocodeLocation G A locationName) w).
Proof.
  intros Hpk Hfirst Hfound Hwrite Hrange Hkey Hread Hsoon.
  destruct (get_result (read_at A) (geocode_key G locationName) w
              (read_select A) (read_delete A)) as [v [Hv _]].
  pose proof (geocodeLocation_by_read G A locationName w v Hv) as Hrun.
  cbv zeta in Hrun.
  set (w1 := state_after
               (CacheManager.get (read_at A) (read_select A) (read_delete A)
                  (geocode_key G locationName)) w) in *.
  assert (Hmiss : truthy v = false).
  { destruct (truthy v) eqn:E; [|reflexivity].
    unfold result_of in Hfirst. rewrite Hrun in Hfirst. simpl in Hfirst.
    injection Hfirst as Hpair.
    exfalso. apply (geocode_uncached_asks G locationName).
    now rewrite <- Hpair. }
  rewrite Hmiss, Hfound, Hwrite in Hrun.
  assert (Hpk1 : primary_key (cache w1)).
  { apply (run_call_primary_key
             (CallGet (read_at A) (read_select A) (read_delete A)
                (geocode_key G locationName)) w Hpk). }
  set (c := fst (geocode_uncached G locationName)) in *.
  pose proof (set_served_row (write_at A) (geocode_key G locationName) c
                (Some 1440) w1 Hpk1 Hrange) as Hrow.
  unfold state_after at 1 2. rewrite Hrun. cbn [snd].
  set (w2 := state_after
               (CacheManager.set (write_at A) Served
                  (geocode_key G locationName) c (Some 1440)) w1) in *.
  assert (Hk' : geocode_key G' locationName = geocode_key G locationName)
    by (unfold geocode_key; now rewrite Hkey).
  assert (Hget : CacheManager.get (read_at A') (read_select A') (read_delete A')
                   (geocode_key G' locationName) w2 = (Returned c, w2)).
  { rewrite Hk', Hread.
    now apply (get_live (read_at A') _ w2 (read_delete A')
                 (mkRow (geocode_key G locationName) c
                    (expiry (write_at A) 1440))). }
  rewrite (geocodeLocation_by_read G' A' locationName w2 c);
    [|unfold result_of; now rewrite Hget].
  rewrite Hfound. unfold state_after. now rewrite Hget.
Qed.

Lemma geocodeLocation_second_lookup_witness :
  geocodeLocation (osm_only JNull) (healthy_at 2000 2200) "Manhattan"
    (state_after
       (geocodeLocation (osm_only manhattan) (healthy_at 1000 1200)
          "Manhattan") fresh)
  = (Returned (manhattan, []),
     state_after
       (geocodeLocation (osm_only manhattan) (healthy_at 1000 1200)
          "Manhattan") fresh).
Proof.
  apply (geocodeLocation_second_lookup_is_cached
           (osm_only manhattan) (osm_only JNull)
           (healthy_at 1000 1200) (healthy_at 2000 2200) "Manhattan" fresh).
  - exact fresh_primary_key.
  - reflexivity.
  - reflexivity.
  - reflexivity.
  - reflexivity.
  - reflexivity.
  - reflexivity.
  - simpl. lia.
Defined.

(** X14: a location that no service finds is not cached.  When the three
    fallbacks give nothing, [geocodeLocation] makes no [set]: the table it
    leaves is the table its own [get] left, so a key without a row stays
    without one. *)
Theorem geocodeLocation_does_not_cache_not_found
    (G : geocoding) (A : cache_answers) (locationName : string) (w : world) :
  truthy (fst (geocode_uncached G locationName)) = false ->
  cache (state_after (geocodeLocation G A locationName) w) =
  cache
    (state_after
       (CacheManager.get (read_at A) (read_select A) (read_delete A)
          (geocode_key G locationName)) w) /\
  (forall k, rows_with k (cache w) = [] ->
     rows_with k (cache (state_after (geocodeLocation G A locationName) w))
     = []).
Proof.
  intros Hnone.
  destruct (get_result (read_at A) (geocode_key G locationName) w
              (read_select A) (read_delete A)) as [v [Hv _]].
  pose proof (geocodeLocation_by_read G A locationName w v Hv) as Hrun.
  cbv zeta in Hrun. rewrite Hnone in Hrun.
  assert (Htable :
            cache (state_after (geocodeLocation G A locationName) w) =
            cache
              (state_after
                 (CacheManager.get (read_at A) (read_select A) (read_delete A)
                    (geocode_key G locationName)) w)).
  { unfold state_after at 1. rewrite Hrun. now destruct (truthy v). }
  split; [exact Htable|].
  intros k Hk. rewrite Htable.
  apply (run_call_keeps_absent
           (CallGet (read_at A) (read_select A) (read_delete A)
              (geocode_key G locationName)) k w);
    [reflexivity | exact Hk].
Qed.

Lemma geocodeLocation_not_found_witness :
  cache
    (state_after
       (geocodeLocation (osm_only JNull) (healthy_at 1000 1200) "Atlantis")
       fresh)
  = cache
      (state_after
         (CacheManager.get 1000 Served Served "geocode_TWFuaGF0dGFu") fresh)
  /\
  (forall k, rows_with k (cache fresh) = [] ->
     rows_with k
       (cache (state_after
                 (geocodeLocation (osm_only JNull) (healthy_at 1000 1200)
                    "Atlantis") fresh))
     = []).
Proof.
  apply (geocodeLocation_does_not_cache_not_found
           (osm_only JNull) (healthy_at 1000 1200) "Atlantis" fresh).
  reflexivity.
Defined.

(** * The social-media route *)

Section SocialMediaFacts.

Import SocialMedia.

Variable J : javascript.
Variable now : nat -> Z.

Lemma firstn_incl {A} (n : nat) (l : list A) : incl (firstn n l) l.
Proof.
  revert l. induction n as [|n IH]; intros [|a l] x Hx; simpl in *;
    try contradiction.
  destruct Hx as [-> | Hx]; [now left | right; now apply IH].
Qed.

Lemma slice_to_incl {A} (finish : option Z) (l : list A) :
  incl (slice_to finish l) l.
Proof.
  unfold slice_to. destruct finish as [n|]; [|intros x []].
  destruct (n <? 0); apply firstn_incl.
Qed.

Lemma filter_by_keywords_incl (keywords : option string) (l : list report) :
  incl (filter_by_keywords J keywords l) l.
Proof.
  unfold filter_by_keywords. destruct keywords as [kw|]; [|apply incl_refl].
  destruct (String.eqb kw ""); [apply incl_refl|].
  intros x Hx. apply filter_In in Hx. tauto.
Qed.

Lemma filteredReports_incl (keywords limit : option string) :
  incl (filteredReports J now keywords limit) (mockReports now).
Proof.
  unfold filteredReports. eapply incl_tran.
  - apply slice_to_incl.
  - apply filter_by_keywords_incl.
Qed.

Lemma mockReports_urgency (r : report) :
  In r (mockReports now) ->
  urgency r = "critical" \/ urgency r = "high" \/ urgency r = "medium".
Proof.
  simpl. intros [<- | [<- | [<- | [<- | [<- | []]]]]]; simpl; auto.
Qed.

Lemma urgency_counts_add_up (l : list report) :
  (forall r, In r l ->
     urgency r = "critical" \/ urgency r = "high" \/ urgency r = "medium") ->
  count_urgency "critical" l + count_urgency "high" l
  + count_urgency "medium" l = Z.of_nat (List.length l).
Proof.
  unfold count_urgency.
  induction l as [|r l IH]; intros Hall; [reflexivity|].
  assert (IH' := IH (fun r' H => Hall r' (or_intror H))).
  destruct (Hall r (or_introl eq_refl)) as [Hu | [Hu | Hu]];
    cbn [filter]; rewrite Hu; cbn [String.eqb Ascii.eqb Bool.eqb];
    cbn [List.length]; lia.
Qed.

Lemma filter_length_le {A} (p : A -> bool) (l : list A) :
  (List.length (filter p l) <= List.length l)%nat.
Proof.
  induction l as [|a l IH]; simpl; [lia|]. destruct (p a); simpl; lia.
Qed.

Lemma slice_to_length {A} (finish : option Z) (l : list A) :
  (List.length (slice_to finish l) <= List.length l)%nat /\
  (forall n, finish = Some n -> 0 <= n ->
             Z.of_nat (List.length (slice_to finish l)) <= n).
Proof.
  unfold slice_to. destruct finish as [n|]; [|simpl; split; [lia | discriminate]].
  split.
  - destruct (n <? 0); rewrite length_firstn; lia.
  - intros n' [= <-] Hn. apply Z.ltb_ge in Hn. rewrite Hn.
    rewrite length_firstn. lia.
Qed.

(** The counts over [filteredReports]. *)
Lemma filteredReports_counts (keywords limit : option string) :
  let reports := filteredReports J now keywords limit in
  count_urgency "critical" reports + count_urgency "high" reports
  + count_urgency "medium" reports = Z.of_nat (List.length reports) /\
  0 <= count_verified reports <= Z.of_nat (List.length reports) /\
  (List.length reports <= 5)%nat /\
  (forall n, parsed_limit J limit = Some n -> 0 <= n ->
             Z.of_nat (List.length reports) <= n).
Proof.
  intros reports. split; [|split; [|split]].
  - apply urgency_counts_add_up. intros r Hr.
    apply mockReports_urgency. now apply (filteredReports_incl keywords limit).
  - unfold count_verified.
    pose proof (filter_length_le verified reports). lia.
  - unfold reports, filteredReports.
    destruct (slice_to_length (parsed_limit J limit)
                (filter_by_keywords J keywords (mockReports now))) as [Hle _].
    assert (Hf : (List.length (filter_by_keywords J keywords (mockReports now))
                  <= 5)%nat).
    { unfold filter_by_keywords. destruct keywords as [kw|]; [|simpl; lia].
      destruct (String.eqb kw ""); [simpl; lia|].
      etransitivity; [apply filter_length_le | simpl; lia]. }
    lia.
  - apply slice_to_length.
Qed.

Lemma filter_map_length {A B} (f : A -> B) (p : B -> bool) (l : list A) :
  List.length (filter p (map f l)) = List.length (filter (fun a => p (f a)) l).
Proof.
  induction l as [|a l IH]; simpl; [reflexivity|].
  destruct (p (f a)); simpl; now rewrite IH.
Qed.

Lemma count_of_urgency (u : string) (reports : list report) :
  count_of (urgency_is u) (map (report_json J) reports)
  = count_urgency u reports.
Proof.
  unfold count_of, count_urgency. now rewrite filter_map_length.
Qed.

Lemma count_of_verified (reports : list report) :
  count_of is_verified (map (report_json J) reports) = count_verified reports.
Proof.
  unfold count_of, count_verified. rewrite filter_map_length.
  do 2 f_equal.
Qed.

(** X15: the summary that [getMockSocialMediaData] returns agrees with the
    reports it returns, whatever the disaster, the keywords and the limit.
    The body's [summary] is the object whose [total] is the number of
    [reports] in the body, whose [critical], [high] and [medium] are the
    numbers of reports of that urgency and whose [verified] is the number of
    verified ones; the three urgency counts add up to [total], [verified] is
    at most [total], and there are never more than five reports, nor more
    than a limit that parses to a number that is not negative. *)
Theorem summary_agrees_with_reports
    (disasterId : string) (keywords limit : option string) :
  exists reports : list json,
    json_field "reports"
      (getMockSocialMediaData J now disasterId keywords limit)
    = Some (JArray reports) /\
    json_field "summary"
      (getMockSocialMediaData J now disasterId keywords limit)
    = Some
        (JObject
           [("total", JNumber (Z.of_nat (List.length reports)));
            ("critical", JNumber (count_of (urgency_is "critical") reports));
            ("high", JNumber (count_of (urgency_is "high") reports));
            ("medium", JNumber (count_of (urgency_is "medium") reports));
            ("verified", JNumber (count_of is_verified reports))]) /\
    count_of (urgency_is "critical") reports
    + count_of (urgency_is "high") reports
    + count_of (urgency_is "medium") reports
    = Z.of_nat (List.length reports) /\
    0 <= count_of is_verified reports <= Z.of_nat (List.length reports) /\
    (List.length reports <= 5)%nat /\
    (forall n, parsed_limit J limit = Some n -> 0 <= n ->
               Z.of_nat (List.length reports) <= n).
Proof.
  exists (map (report_json J) (filteredReports J now keywords limit)).
  destruct (filteredReports_counts keywords limit)
    as [Hsum [Hverified [Hfive Hlimit]]].
  rewrite !count_of_urgency, count_of_verified, length_map.
  split; [reflexivity|]. split; [reflexivity|].
  split; [exact Hsum|]. split; [exact Hverified|].
  split; [exact Hfive | exact Hlimit].
Qed.

(** X16: the edges of the two query parameters.  Without [keywords], or
    with an empty one, nothing is filtered: with no [limit] either, all five
    mock reports come back in their order.  A [limit] that [parseInt] makes
    [NaN] of gives no reports at all, and a negative one drops that many
    reports from the end of the filtered list. *)
Theorem keywords_and_limit_edges (keywords limit : option string) :
  filteredReports J now None None = mockReports now /\
  filteredReports J now (Some "") None = mockReports now /\
  (parsed_limit J limit = None -> filteredReports J now keywords limit = []) /\
  (forall n, parsed_limit J limit = Some n -> n < 0 ->
     filteredReports J now keywords limit =
     firstn
       (List.length (filter_by_keywords J keywords (mockReports now))
        - Z.to_nat (- n))
       (filter_by_keywords J keywords (mockReports now))).
Proof.
  split; [reflexivity|]. split; [reflexivity|]. split.
  - intros Hnan. unfold filteredReports. now rewrite Hnan.
  - intros n Hn Hneg. unfold filteredReports, slice_to. rewrite Hn.
    apply Z.ltb_lt in Hneg. rewrite Hneg. f_equal. lia.
Qed.

(** The route, by what its [get] returned. *)
Lemma route_by_read (A : cache_answers) (disasterId : string)
    (keywords limit : option string) (w : world) (cached : json) :
  result_of
    (CacheManager.get (read_at A) (read_select A) (read_delete A)
       (cacheKey disasterId keywords)) w = Returned cached ->
  let w1 :=
    state_after
      (CacheManager.get (read_at A) (read_select A) (read_delete A)
         (cacheKey disasterId keywords)) w in
  route J now A disasterId keywords limit w =
  if truthy cached
  then (Returned (cached, []), w1)
  else
    (Returned
       (getMockSocialMediaData J now disasterId keywords limit,
        [mkEmitted ("disaster_" ++ disasterId) "social_media_updated"
           (JObject
              [("disaster_id", JString disasterId);
               ("reports",
                JArray (map (report_json J)
                          (filteredReports J now keywords limit)))])]),
     state_after
       (CacheManager.set (write_at A) (write_fault A)
          (cacheKey disasterId keywords)
          (getMockSocialMediaData J now disasterId keywords limit) (Some 15))
       w1).
Proof.
  intros Hread w1. unfold route, bind.
  destruct (get_runs (read_at A) (read_select A) (read_delete A)
              (cacheKey disasterId keywords) w) as [v Hv].
  unfold result_of in Hread. rewrite Hv in Hread. simpl in Hread.
  injection Hread as ->. rewrite Hv. fold w1.
  destruct (truthy cached); [reflexivity|].
  destruct (set_runs (write_at A) (write_fault A)
              (cacheKey disasterId keywords)
              (getMockSocialMediaData J now disasterId keywords limit)
              (Some 15) w1) as [b Hb].
  rewrite Hb. reflexivity.
Qed.

End SocialMediaFacts.

(** X17: for 15 minutes the route repeats its answer to every request that
    makes the same key.  When a request missed the cache and its [set] was
    served, a later request whose select is served, no later than 15 minutes
    after the write, whose disaster and keywords give the same key string
    gets the first request's body and emits nothing: whatever its [limit]
    is, and also when it asks for the keyword ["all"] after a request
    without keywords. *)
Theorem social_media_answer_repeats_for_the_key
    (J J' : SocialMedia.javascript) (now now' : nat -> Z)
    (A A' : cache_answers) (disasterId disasterId' : string)
    (keywords keywords' limit limit' : option string) (cached : json)
    (w : world) :
  primary_key (cache w) ->
  result_of
    (CacheManager.get (read_at A) (read_select A) (read_delete A)
       (SocialMedia.cacheKey disasterId keywords)) w = Returned cached ->
  truthy cached = false ->
  write_fault A = Served ->
  in_date_range (write_at A + 15 * 60 * 1000) = true ->
  SocialMedia.cacheKey disasterId' keywords'
  = SocialMedia.cacheKey disasterId keywords ->
  read_select A' = Served ->
  read_at A' <= write_at A + 15 * 60 * 1000 ->
  SocialMedia.route J' now' A' disasterId' keywords' limit'
    (state_after (SocialMedia.route J now A disasterId keywords limit) w)
  = (Returned
       (SocialMedia.getMockSocialMediaData J now disasterId keywords limit, []),
     state_after (SocialMedia.route J now A disasterId keywords limit) w).
Proof.
  intros Hpk Hcached Hmiss Hwrite Hrange Hkey Hread Hsoon.
  pose proof (route_by_read J now A disasterId keywords limit w cached Hcached)
    as Hrun.
  cbv zeta in Hrun. rewrite Hmiss, Hwrite in Hrun.
  set (w1 := state_after
               (CacheManager.get (read_at A) (read_select A) (read_delete A)
                  (SocialMedia.cacheKey disasterId keywords)) w) in *.
  assert (Hpk1 : primary_key (cache w1)).
  { apply (run_call_primary_key
             (CallGet (read_at A) (read_select A) (read_delete A)
                (SocialMedia.cacheKey disasterId keywords)) w Hpk). }
  set (body := SocialMedia.getMockSocialMediaData J now disasterId keywords
                 limit) in *.
  pose proof (set_served_row (write_at A)
                (SocialMedia.cacheKey disasterId keywords) body (Some 15) w1
                Hpk1 Hrange) as Hrow.
  unfold state_after at 1 2. rewrite Hrun. cbn [snd].
  set (w2 := state_after
               (CacheManager.set (write_at A) Served
                  (SocialMedia.cacheKey disasterId keywords) body (Some 15))
               w1) in *.
  assert (Hget : CacheManager.get (read_at A') (read_select A') (read_delete A')
                   (SocialMedia.cacheKey disasterId' keywords') w2
                 = (Returned body, w2)).
  { rewrite Hkey, Hread.
    now apply (get_live (read_at A') _ w2 (read_delete A')
                 (mkRow (SocialMedia.cacheKey disasterId keywords) body
                    (expiry (write_at A) 15))). }
  rewrite (route_by_read J' now' A' disasterId' keywords' limit' w2 body);
    [|unfold result_of; now rewrite Hget].
  unfold state_after. rewrite Hget. reflexivity.
Qed.

Lemma social_media_answer_repeats_witness :
  SocialMedia.route plain_javascript (fun _ => 2000) (healthy_at 2000 2200)
    "d1" (Some "all") (Some "1")
    (state_after
       (SocialMedia.route plain_javascript (fun _ => 1000)
          (healthy_at 1000 1200) "d1" None None) fresh)
  = (Returned
       (SocialMedia.getMockSocialMediaData plain_javascript (fun _ => 1000)
          "d1" None None, []),
     state_after
       (SocialMedia.route plain_javascript (fun _ => 1000)
          (healthy_at 1000 1200) "d1" None None) fresh).
Proof.
  apply (social_media_answer_repeats_for_the_key
           plain_javascript plain_javascript (fun _ => 1000) (fun _ => 2000)
           (healthy_at 1000 1200) (healthy_at 2000 2200) "d1" "d1"
           None (Some "all") None (Some "1") JNull fresh).
  - exact fresh_primary_key.
  - reflexivity.
  - reflexivity.
  - reflexivity.
  - reflexivity.
  - reflexivity.
  - reflexivity.
  - simpl. lia.
Defined.

(** * The official updates *)






(** * The namespaces of the cache keys *)

(** X19: the two users of the cache keep out of each other's entries.  A
    social-media request, hit or miss and whatever the store answers, leaves
    the row under every geocoding key as it was, and a geocoding lookup
    leaves the row under every social-media key as it was: the key prefixes
    differ. *)
Theorem social_media_and_geocoding_keys_are_apart
    (J : SocialMedia.javascript) (now : nat -> Z) (A A' : cache_answers)
    (disasterId : string) (keywords limit : option string)
    (G : geocoding) (locationName : string) (w : world) :
  rows_with (geocode_key G locationName)
    (cache (state_after
              (SocialMedia.route J now A disasterId keywords limit) w))
  = rows_with (geocode_key G locationName) (cache w) /\
  rows_with (SocialMedia.cacheKey disasterId keywords)
    (cache (state_after (geocodeLocation G A' locationName) w))
  = rows_with (SocialMedia.cacheKey disasterId keywords) (cache w).
Proof.
  assert (Hapart : SocialMedia.cacheKey disasterId keywords
                   <> geocode_key G locationName) by discriminate.
  split.
  - destruct (get_result (read_at A) (SocialMedia.cacheKey disasterId keywords)
                w (read_select A) (read_delete A)) as [v [Hv _]].
    pose proof (route_by_read J now A disasterId keywords limit w v Hv)
      as Hrun.
    cbv zeta in Hrun. unfold state_after at 1. rewrite Hrun.
    pose proof (run_call_other_rows
                  (CallGet (read_at A) (read_select A) (read_delete A)
                     (SocialMedia.cacheKey disasterId keywords))
                  (geocode_key G locationName) w Hapart) as Hread.
    destruct (truthy v); cbn [snd]; [exact Hread|].
    rewrite <- Hread.
    apply (run_call_other_rows
             (CallSet (write_at A) (write_fault A)
                (SocialMedia.cacheKey disasterId keywords)
                (SocialMedia.getMockSocialMediaData J now disasterId keywords
                   limit) (Some 15))).
    exact Hapart.
  - assert (Hapart' : geocode_key G locationName
                      <> SocialMedia.cacheKey disasterId keywords)
      by (intros H; now apply Hapart).
    destruct (get_result (read_at A') (geocode_key G locationName) w
                (read_select A') (read_delete A')) as [v [Hv _]].
    pose proof (geocodeLocation_by_read G A' locationName w v Hv) as Hrun.
    cbv zeta in Hrun. unfold state_after at 1. rewrite Hrun.
    pose proof (run_call_other_rows
                  (CallGet (read_at A') (read_select A') (read_delete A')
                     (geocode_key G locationName))
                  (SocialMedia.cacheKey disasterId keywords) w Hapart')
      as Hread.
    destruct (truthy v); cbn [snd]; [exact Hread|].
    destruct (truthy (fst (geocode_uncached G locationName)));
      [|exact Hread].
    rewrite <- Hread.
    apply (run_call_other_rows
             (CallSet (write_at A') (write_fault A')
                (geocode_key G locationName)
                (fst (geocode_uncached G locationName)) (Some 1440))).
    exact Hapart'.
Qed.
